(** * seller.py: stock and price reconciliation for a marketplace seller account

    A shallow embedding of [seller.py] and the properties of its
    reconciliation core: [price_conversion], [divide], [create_stocks],
    [create_prices] and the orchestration in [main].

    Python values are embedded as follows.
    - A [str] is the list of its Unicode code points ([pystr]).  String
      literals of the source are written [py "..."], which decodes the UTF-8
      bytes of the Rocq literal.
    - The cells of the supplier spreadsheet are Python objects ([pyobj]); the
      program applies only [str()], [int()] and [.split] to them.
    - An exception is a value of [exn]; a computation that may raise returns a
      [result].
    - The list [offer_ids] is mutated in place by [create_stocks]: the
      functions that receive it are computations over the contents of that
      one list object ([ST]), and [main] runs them on the same object.
    - What [int()] takes from the running interpreter (its Unicode database
      and the limit on the length of integer texts) is an [Interpreter].
    - The HTTP calls, the download of the spreadsheet and the reading of the
      credentials are the outside of a run ([world]); a run records the
      calls it makes and the lines it prints as a list of [event]s. *)

From Stdlib Require Import ZArith NArith String Ascii Decimal DecimalPos.
From stdpp Require Import base option list gmap.

Local Open Scope Z_scope.

(** ** Strings *)

Abbreviation pystr := (list N).

(** UTF-8 decoding of a literal: [pending] continuation bytes are still
    expected for the code point accumulated in [acc]. *)
Fixpoint utf8_decode (pending : nat) (acc : N) (s : string) : pystr :=
  match s with
  | EmptyString => []
  | String a s' =>
      let b := N_of_ascii a in
      if (b <? 128)%N then b :: utf8_decode 0 0%N s'
      else if (b <? 192)%N then
        let acc' := (acc * 64 + (b - 128))%N in
        match pending with
        | 1%nat => acc' :: utf8_decode 0 0%N s'
        | S p => utf8_decode p acc' s'
        | O => utf8_decode 0 0%N s'
        end
      else if (b <? 224)%N then utf8_decode 1 (b - 192)%N s'
      else if (b <? 240)%N then utf8_decode 2 (b - 224)%N s'
      else utf8_decode 3 (b - 240)%N s'
  end.

Definition py (s : string) : pystr := utf8_decode 0 0%N s.

(** ** Exceptions and results *)

Inductive exn : Type :=
  | ValueError
  | TypeError
  | AttributeError
  | IndexError
  | OverflowError        (* int() of an infinite float *)
  | ReadTimeout          (* requests.exceptions.ReadTimeout *)
  | ConnectTimeout       (* requests.exceptions.ConnectTimeout, a ConnectionError *)
  | ConnectionError      (* requests.exceptions.ConnectionError *)
  | HTTPError            (* raised by response.raise_for_status() *)
  | OtherException.      (* any other subclass of Exception *)

#[global] Instance exn_eq_dec : EqDecision exn.
Proof. solve_decision. Defined.

Inductive result (A : Type) : Type :=
  | Ok (a : A)
  | Raise (e : exn).
Arguments Ok {A} a.
Arguments Raise {A} e.

Definition rbind {A B} (r : result A) (k : A -> result B) : result B :=
  match r with
  | Ok a => k a
  | Raise e => Raise e
  end.

#[global] Instance result_ret : MRet result := fun A a => Ok a.
#[global] Instance result_bind : MBind result := fun A B k r => rbind r k.

(** ** Objects *)

(** The value of a spreadsheet cell.  [PyOther] stands for any object that is
    neither [None] nor a [str] (an int, a float, a bool, a timestamp): the
    program only ever calls [str()] and [int()] on it, so it is represented
    by the outcomes of those two calls. *)
Inductive pyobj : Type :=
  | PyNone
  | PyStr (s : pystr)
  | PyOther (shown : pystr) (as_int : result Z).

(** A supplier row is a [dict] from column labels to cells. *)
Abbreviation dict := (gmap pystr pyobj).

(** [d.get(key)]: the value, or [None] when the key is absent. *)
Definition dict_get (d : dict) (key : pystr) : pyobj :=
  default PyNone (d !! key).

(** *** [str(x)] *)

Definition py_str (x : pyobj) : pystr :=
  match x with
  | PyNone => py "None"
  | PyStr s => s
  | PyOther shown _ => shown
  end.

(** *** [str.split(sep)] for a one-character separator, and [re.sub] *)

Fixpoint str_split (sep : N) (s : pystr) : list pystr :=
  match s with
  | [] => [[]]
  | c :: s' =>
      if (c =? sep)%N then [] :: str_split sep s'
      else match str_split sep s' with
           | [] => [[c]]
           | piece :: pieces => (c :: piece) :: pieces
           end
  end.

(** [l[i]] for a non-negative index. *)
Definition py_index {A} (l : list A) (i : nat) : result A :=
  match l !! i with
  | Some x => Ok x
  | None => Raise IndexError
  end.

Definition is_ascii_digit (c : N) : bool := ((48 <=? c) && (c <=? 57))%N.

(** [re.sub("[^0-9]", repl, s)]: every character outside '0'..'9' is
    replaced by [repl]. *)
Definition re_sub_not_0_9 (repl : pystr) (s : pystr) : pystr :=
  flat_map (fun c => if is_ascii_digit c then [c] else repl) s.

(** *** [range] and slices *)

(** Number of elements of [range(start, stop, step)], [step <> 0]. *)
Definition range_length (start stop step : Z) : nat :=
  if 0 <? step then
    if start <? stop then Z.to_nat ((stop - start - 1) / step + 1) else O
  else
    if stop <? start then Z.to_nat ((start - stop - 1) / (- step) + 1) else O.

Definition py_range (start stop step : Z) : result (list Z) :=
  if step =? 0 then Raise ValueError
  else Ok (map (fun k : nat => start + Z.of_nat k * step)
               (seq 0 (range_length start stop step))).

(** A slice bound, clamped to [0 .. len] (negative bounds count from the end). *)
Definition slice_bound (len i : Z) : Z :=
  if i <? 0 then Z.max 0 (i + len) else Z.min i len.

(** [l[i:j]] *)
Definition py_slice {A} (l : list A) (i j : Z) : list A :=
  let len := Z.of_nat (length l) in
  let lo := slice_bound len i in
  let hi := slice_bound len j in
  take (Z.to_nat (hi - lo)) (drop (Z.to_nat lo) l).

(** ** [price_conversion] and [divide] *)

Definition price_conversion (price : pyobj) : result pystr :=
  match price with
  | PyStr s =>
      integer_part ← py_index (str_split 46%N s) 0;
      Ok (re_sub_not_0_9 [] integer_part)
  | _ => Raise AttributeError
  end.

(** The generator is consumed whole by [list(divide(...))] at every call
    site; the embedding returns the list of chunks it yields. *)
Definition divide {A} (lst : list A) (n : Z) : result (list (list A)) :=
  starts ← py_range 0 (Z.of_nat (length lst)) n;
  Ok (map (fun i => py_slice lst i (i + n)) starts).


(** ** [int(x)] *)

(** What [int()] takes from the running interpreter: the Unicode database
    ([str.isspace] and the decimal value of a character, consulted for
    characters from U+007F on) and [sys.get_int_max_str_digits()], which is
    [0] when the length of integer literals is not limited. *)
Class Interpreter : Type := {
  Py_UNICODE_ISSPACE : N -> bool;
  Py_UNICODE_TODECIMAL : N -> option N;
  int_max_str_digits : N
}.

(** The threshold under which the digit limit is never checked. *)
Definition MAX_STR_DIGITS_THRESHOLD : N := 640%N.

Definition Py_ISSPACE (c : N) : bool :=
  ((c =? 32) || ((9 <=? c) && (c <=? 13)))%N.

(** [*str == c] on a NUL-terminated text. *)
Definition starts_with (c : N) (s : pystr) : bool :=
  match s with
  | c' :: _ => (c' =? c)%N
  | [] => false
  end.

Fixpoint skip_spaces (s : pystr) : pystr :=
  match s with
  | c :: s' => if Py_ISSPACE c then skip_spaces s' else s
  | [] => []
  end.

(** The digit loop of [int(str)] in base 10 (Python 3.6 and later): digits
    with single underscores between them.  [prev] is the character read last ([0] at the start);
    the result is the value read, the number of digits and the unread rest,
    or [None] for a doubled or trailing underscore. *)
Fixpoint scan_digits (prev : N) (value : Z) (digits : N) (s : pystr)
  : option (Z * N * pystr) :=
  match s with
  | c :: s' =>
      if (c =? 95)%N then
        if (prev =? 95)%N then None else scan_digits c value digits s'
      else if is_ascii_digit c then
        scan_digits c (value * 10 + Z.of_N (c - 48)) (digits + 1)%N s'
      else if (prev =? 95)%N then None
      else Some (value, digits, s)
  | [] => if (prev =? 95)%N then None else Some (value, digits, [])
  end.

Section Builtins.
Context {interp : Interpreter}.

(** Characters below U+007F stay; a Unicode space becomes a blank and a
    Unicode decimal digit its ASCII digit; at the first other character the
    text is cut and ends in '?'. *)
Fixpoint transform_decimal_and_space (s : pystr) : pystr :=
  match s with
  | [] => []
  | ch :: s' =>
      if (ch <? 127)%N then ch :: transform_decimal_and_space s'
      else if Py_UNICODE_ISSPACE ch then 32%N :: transform_decimal_and_space s'
      else match Py_UNICODE_TODECIMAL ch with
           | Some d => (48 + d)%N :: transform_decimal_and_space s'
           | None => [63%N]
           end
  end.

(** An ASCII string is passed on as it is. *)
Definition to_ascii_decimal (s : pystr) : pystr :=
  if forallb (fun c => (c <? 128)%N) s then s
  else transform_decimal_and_space s.

(** [int(s)] for a string already brought to ASCII: blanks, an optional
    sign, the digits, blanks. *)
Definition long_from_string (s : pystr) : result Z :=
  let s1 := skip_spaces s in
  let sign := if starts_with 45%N s1 then -1 else 1 in
  let s2 :=
    if starts_with 43%N s1 || starts_with 45%N s1 then drop 1 s1 else s1 in
  if starts_with 95%N s2 then Raise ValueError
  else
    match scan_digits 0%N 0 0%N s2 with
    | None => Raise ValueError
    | Some (value, digits, rest) =>
        if (digits =? 0)%N then Raise ValueError
        else if ((MAX_STR_DIGITS_THRESHOLD <? digits)
                 && (0 <? int_max_str_digits)
                 && (int_max_str_digits <? digits))%N
        then Raise ValueError
        else match skip_spaces rest with
             | [] => Ok (sign * value)
             | _ :: _ => Raise ValueError
             end
    end.

Definition py_int (x : pyobj) : result Z :=
  match x with
  | PyNone => Raise TypeError
  | PyStr s => long_from_string (to_ascii_decimal s)
  | PyOther _ as_int => as_int
  end.

End Builtins.

(** An interpreter whose Unicode database knows no digit or space beyond
    ASCII, with the default digit limit.  The concrete runs below use ASCII
    quantities of a few digits, which every interpreter reads alike
    ([py_int_same_under_every_interpreter]). *)
Definition plain_interpreter : Interpreter :=
  {| Py_UNICODE_ISSPACE := fun _ => false;
     Py_UNICODE_TODECIMAL := fun _ => None;
     int_max_str_digits := 4300%N |}.


(** ** State: the objects a run mutates *)

(** A computation over a mutable state [S] that may raise; what it wrote
    before raising stays written. *)
Definition ST (S A : Type) : Type := S -> result A * S.

#[global] Instance ST_ret {S} : MRet (ST S) := fun A a s => (Ok a, s).
#[global] Instance ST_bind {S} : MBind (ST S) := fun A B k m s =>
  match m s with
  | (Ok a, s') => k a s'
  | (Raise e, s') => (Raise e, s')
  end.

Definition lift {S A} (r : result A) : ST S A := fun s => (r, s).
Definition get {S} : ST S S := fun s => (Ok s, s).
Definition put {S} (s' : S) : ST S unit := fun _ => (Ok (), s').

(** [for x in l: acc = body(acc, x)] *)
Fixpoint for_each {S A B} (l : list A) (acc : B) (body : B -> A -> ST S B)
  : ST S B :=
  match l with
  | [] => mret acc
  | x :: l' => acc' ← body acc x; for_each l' acc' body
  end.

(** [try: body / except Exception as e: handler(e)] *)
Definition try_except {S A} (body : ST S A) (handler : exn -> ST S A) : ST S A :=
  fun s =>
    match body s with
    | (Ok a, s') => (Ok a, s')
    | (Raise e, s') => handler e s'
    end.

(** *** Methods of the list object [offer_ids] *)

(** [x in l] *)
Definition list_contains (x : pystr) : ST (list pystr) bool :=
  fun l => (Ok (bool_decide (x ∈ l)), l).

Fixpoint remove_first (x : pystr) (l : list pystr) : option (list pystr) :=
  match l with
  | [] => None
  | y :: l' => if decide (x = y) then Some l' else cons y <$> remove_first x l'
  end.

(** [l.remove(x)]: drops the first occurrence, [ValueError] when there is none. *)
Definition list_remove (x : pystr) : ST (list pystr) () :=
  fun l =>
    match remove_first x l with
    | Some l' => (Ok (), l')
    | None => (Raise ValueError, l)
    end.

(** ** Reconciliation *)

Module Stock.
(** [{"offer_id": ..., "stock": ...}] *)
Record t : Type := mk { offer_id : pystr; stock : Z }.
End Stock.

Module Price.
Record t : Type := mk {
  auto_action_enabled : pystr;
  currency_code : pystr;
  offer_id : pystr;
  old_price : pystr;
  price : pystr
}.
End Price.

Section Reconciliation.
Context {interp : Interpreter}.

(** The bucketing of a quantity cell (the [if]/[elif]/[else] of
    [create_stocks]). *)
Definition classify_stock (quantity : pyobj) : result Z :=
  let count := py_str quantity in
  if decide (count = py ">10") then Ok 100
  else if decide (count = py "1") then Ok 0
  else py_int quantity.

Definition create_stocks (watch_remnants : list dict)
  : ST (list pystr) (list Stock.t) :=
  stocks ← for_each watch_remnants [] (fun stocks watch =>
    found ← list_contains (py_str (dict_get watch (py "Код")));
    if (found : bool) then
      stock ← lift (classify_stock (dict_get watch (py "Количество")));
      let stocks :=
        stocks ++ [Stock.mk (py_str (dict_get watch (py "Код"))) stock] in
      list_remove (py_str (dict_get watch (py "Код")));;
      mret stocks
    else mret stocks);
  offer_ids ← get;
  for_each offer_ids stocks (fun stocks offer_id =>
    mret (stocks ++ [Stock.mk offer_id 0])).

Definition create_prices (watch_remnants : list dict)
  : ST (list pystr) (list Price.t) :=
  for_each watch_remnants [] (fun prices watch =>
    found ← list_contains (py_str (dict_get watch (py "Код")));
    if (found : bool) then
      converted ← lift (price_conversion (dict_get watch (py "Цена")));
      let price :=
        Price.mk (py "UNKNOWN") (py "RUB")
                 (py_str (dict_get watch (py "Код"))) (py "0") converted in
      mret (prices ++ [price])
    else mret prices).

End Reconciliation.

(** ** Orchestration *)

(** What a run does to the outside, in order. *)
Inductive event : Type :=
  | Ev_get_offer_ids
  | Ev_download_stock
  | Ev_update_stocks (stocks : list Stock.t)
  | Ev_update_price (prices : list Price.t)
  | Ev_print (error : option exn) (text : pystr).

(** The outside of a run: the outcome of each call that leaves the process,
    which may depend on everything the run did before it.  [get_offer_ids]
    pages through the catalogue over HTTP and [download_stock] fetches and
    parses the spreadsheet; here they are their outcomes. *)
Record world : Type := {
  env_str : result ();
  get_offer_ids : list event -> result (list pystr);
  download_stock : list event -> result (list dict);
  update_stocks : list event -> list Stock.t -> result ();
  update_price : list event -> list Price.t -> result ()
}.

(** The state of a run: the list object bound to [offer_ids] and the events
    so far. *)
Record run_state : Type := {
  offer_ids_obj : list pystr;
  trace : list event
}.

Abbreviation IO := (ST run_state).

(** A call to the outside: it is recorded, then returns or raises. *)
Definition call {A} (e : event) (outcome : list event -> result A) : IO A :=
  fun s =>
    (outcome (trace s),
     {| offer_ids_obj := offer_ids_obj s; trace := trace s ++ [e] |}).

(** A computation on the list object [offer_ids]. *)
Definition on_offer_ids {A} (m : ST (list pystr) A) : IO A :=
  fun s =>
    let '(r, ids) := m (offer_ids_obj s) in
    (r, {| offer_ids_obj := ids; trace := trace s |}).

(** [print(error, text)], or [print(text)] when [error] is [None]. *)
Definition print (error : option exn) (text : pystr) : IO () :=
  fun s =>
    (Ok (),
     {| offer_ids_obj := offer_ids_obj s;
        trace := trace s ++ [Ev_print error text] |}).

(** [isinstance(e, cls)] over the exception classes of [exn]:
    [ConnectTimeout] derives from [ConnectionError]. *)
Definition isinstance (e cls : exn) : bool :=
  bool_decide (e = cls)
  || (bool_decide (e = ConnectTimeout) && bool_decide (cls = ConnectionError)).

Section Orchestration.
Context {interp : Interpreter}.
Variable w : world.

Definition submit_stocks (stocks : list Stock.t) (size : Z) : IO () :=
  batches ← lift (divide stocks size);
  for_each batches () (fun _ some_stock =>
    call (Ev_update_stocks some_stock)
         (fun history => update_stocks w history some_stock)).

Definition submit_prices (prices : list Price.t) (size : Z) : IO () :=
  batches ← lift (divide prices size);
  for_each batches () (fun _ some_price =>
    call (Ev_update_price some_price)
         (fun history => update_price w history some_price)).

Definition upload_prices (watch_remnants : list dict) : IO (list Price.t) :=
  offer_ids ← call Ev_get_offer_ids (get_offer_ids w);
  on_offer_ids (put offer_ids);;
  prices ← on_offer_ids (create_prices watch_remnants);
  submit_prices prices 1000;;
  mret prices.

Definition upload_stocks (watch_remnants : list dict)
  : IO (list Stock.t * list Stock.t) :=
  offer_ids ← call Ev_get_offer_ids (get_offer_ids w);
  on_offer_ids (put offer_ids);;
  stocks ← on_offer_ids (create_stocks watch_remnants);
  submit_stocks stocks 100;;
  let not_empty :=
    filter (fun stock => Stock.stock stock ≠ 0) stocks in
  mret (not_empty, stocks).

(** The body of the [try] of [main]. *)
Definition main_try : IO () :=
  offer_ids ← call Ev_get_offer_ids (get_offer_ids w);
  on_offer_ids (put offer_ids);;
  watch_remnants ← call Ev_download_stock (download_stock w);
  stocks ← on_offer_ids (create_stocks watch_remnants);
  submit_stocks stocks 100;;
  prices ← on_offer_ids (create_prices watch_remnants);
  submit_prices prices 900.

Definition main : IO () :=
  lift (env_str w);;
  try_except main_try (fun error =>
    if isinstance error ReadTimeout then
      print None (py "Превышено время ожидания...")
    else if isinstance error ConnectionError then
      print (Some error) (py "Ошибка соединения")
    else
      print (Some error) (py "ERROR_2")).

End Orchestration.

(** A run starts with no event and [offer_ids] not yet bound. *)
Definition run {A} (m : IO A) : result A * run_state :=
  m {| offer_ids_obj := []; trace := [] |}.

(** ** The catalogue: [get_offer_ids] *)

Module Catalog.

(** The object under "result" of a response, as far as [get_offer_ids] looks
    at it.  [items] is what [product_list.extend] appends, [None] when the
    value under "items" cannot be iterated (the key is absent, or holds a
    number): an element is [Some] product when it is an object and [None]
    when it is anything else.  [total] is the integer that the value under
    "total" is equal to, [None] when it equals no integer (the key is
    absent, or holds a text).  [last_id] is the value under "last_id". *)
Record page : Type := mk_page {
  items : option (list (option dict));
  total : option Z;
  last_id : pyobj
}.

Section Pages.

(** [get_product_list(last_id, client_id, seller_token)]: the outcome of the
    request, which may depend on how many requests came before it.  It
    raises when the request fails or is answered with an error status, and
    returns [None] when the response holds no object under "result" (the
    loop then fails on [some_prod.get]). *)
Variable get_product_list : nat -> pyobj -> result (option page).

(** The [while True] loop, run for at most [fuel] requests: [None] when the
    loop has not ended by then. *)
Fixpoint fetch (fuel requests : nat) (last_id_ : pyobj)
    (product_list : list (option dict))
  : option (result (list (option dict))) :=
  match fuel with
  | O => None
  | S fuel' =>
      match get_product_list requests last_id_ with
      | Raise e => Some (Raise e)
      | Ok None => Some (Raise AttributeError)
      | Ok (Some some_prod) =>
          match items some_prod with
          | None => Some (Raise TypeError)
          | Some more =>
              let product_list := product_list ++ more in
              if decide (total some_prod = Some (Z.of_nat (length product_list)))
              then Some (Ok product_list)
              else fetch fuel' (S requests) (last_id some_prod) product_list
          end
      end
  end.

(** [product.get("offer_id")] *)
Definition product_offer_id (product : option dict) : result pyobj :=
  match product with
  | Some product => Ok (dict_get product (py "offer_id"))
  | None => Raise AttributeError
  end.

(** The [for] loop that collects the offer ids. *)
Fixpoint collect (product_list : list (option dict)) (offer_ids : list pyobj)
  : result (list pyobj) :=
  match product_list with
  | [] => Ok offer_ids
  | product :: product_list' =>
      offer_id ← product_offer_id product;
      collect product_list' (offer_ids ++ [offer_id])
  end.

Definition get_offer_ids (fuel : nat) : option (result (list pyobj)) :=
  match fetch fuel 0 (PyStr []) [] with
  | None => None
  | Some (Raise e) => Some (Raise e)
  | Some (Ok product_list) => Some (collect product_list [])
  end.

End Pages.

End Catalog.

(** * Definitions for the statements *)

(** ** Prices, in the words of the specification *)

(** The part of [p] strictly before its first '.', all of [p] when it has
    none. *)
Fixpoint before_first_dot (p : pystr) : pystr :=
  match p with
  | [] => []
  | c :: p' => if (c =? 46)%N then [] else c :: before_first_dot p'
  end.

(** The ASCII digits of [p] that stand before its first '.'. *)
Definition digits_before_first_dot (p : pystr) : pystr :=
  filter (fun c => is_ascii_digit c = true) (before_first_dot p).

(** ** Integers and their texts *)

(** The decimal text of an integer, as [str()] prints it. *)
Fixpoint uint_digits (d : Decimal.uint) : pystr :=
  match d with
  | Decimal.Nil => []
  | Decimal.D0 d => 48%N :: uint_digits d
  | Decimal.D1 d => 49%N :: uint_digits d
  | Decimal.D2 d => 50%N :: uint_digits d
  | Decimal.D3 d => 51%N :: uint_digits d
  | Decimal.D4 d => 52%N :: uint_digits d
  | Decimal.D5 d => 53%N :: uint_digits d
  | Decimal.D6 d => 54%N :: uint_digits d
  | Decimal.D7 d => 55%N :: uint_digits d
  | Decimal.D8 d => 56%N :: uint_digits d
  | Decimal.D9 d => 57%N :: uint_digits d
  end.

Definition int_repr (n : Z) : pystr :=
  match Z.to_int n with
  | Decimal.Pos d => uint_digits d
  | Decimal.Neg d => 45%N :: uint_digits d
  end.

(** An integer cell: [str()] gives its decimal text and [int()] the integer. *)
Definition int_cell (n : Z) : pyobj := PyOther (int_repr n) (Ok n).

(** ** Chunks *)

(** The chunks by position: [c] pieces of [m] elements each, cut from [s]
    one after the other. *)
Definition pieces {A : Type} (m c : nat) (s : list A) : list (list A) :=
  map (fun k => take m (drop (k * m) s)) (seq 0 c).

(** ** Rows, updates and the loops of the reconciliation *)

(** The cells of a supplier row that the program reads. *)
Definition code (watch : dict) : pystr := py_str (dict_get watch (py "Код")).
Definition quantity (watch : dict) : pyobj := dict_get watch (py "Количество").
Definition price_cell (watch : dict) : pyobj := dict_get watch (py "Цена").

Definition zero_stock (offer_id : pystr) : Stock.t := Stock.mk offer_id 0.

Definition price_entry (offer_id converted : pystr) : Price.t :=
  Price.mk (py "UNKNOWN") (py "RUB") offer_id (py "0") converted.

(** The body of the first loop of [create_stocks]. *)
Definition stocks_step {interp : Interpreter}
    (stocks : list Stock.t) (watch : dict) : ST (list pystr) (list Stock.t) :=
  found ← list_contains (code watch);
  if (found : bool) then
    stock ← lift (classify_stock (quantity watch));
    list_remove (code watch);;
    mret (stocks ++ [Stock.mk (code watch) stock])
  else mret stocks.

(** A stock update that comes from the first row carrying its code. *)
Definition from_first_row {interp : Interpreter}
    (rows : list dict) (update : Stock.t) : Prop :=
  exists (i : nat) watch,
    rows !! i = Some watch
    ∧ code watch = Stock.offer_id update
    ∧ classify_stock (quantity watch) = Ok (Stock.stock update)
    ∧ forall (j : nat) earlier,
        (j < i)%nat -> rows !! j = Some earlier -> code earlier ≠ code watch.

Definition prices_step (prices : list Price.t) (watch : dict)
  : ST (list pystr) (list Price.t) :=
  found ← list_contains (code watch);
  if (found : bool) then
    converted ← lift (price_conversion (price_cell watch));
    mret (prices ++ [price_entry (code watch) converted])
  else mret prices.

(** A price update built from a row. *)
Definition priced_from (update : Price.t) (watch : dict) : Prop :=
  exists converted,
    price_conversion (price_cell watch) = Ok converted
    ∧ update = price_entry (code watch) converted.

(** ** Sample rows *)

Definition row (code_ quantity_ price_ : pyobj) : dict :=
  {[ py "Код" := code_; py "Количество" := quantity_; py "Цена" := price_ ]}.

Definition text_row (code_ quantity_ price_ : string) : dict :=
  row (PyStr (py code_)) (PyStr (py quantity_)) (PyStr (py price_)).

(** Two rows for "A" (the second one comes too late), one row for an offer
    the catalogue does not have. *)
Definition sample_rows : list dict :=
  [text_row "A" "5" "100.00"; text_row "A" "7" "120.00";
   text_row "D" ">10" "1.00"].

Definition sample_ids : list pystr := [py "A"; py "B"; py "C"].

(** The example of the specification: one row for "A" with price "100.00". *)
Definition price_row_A : dict :=
  {[ py "Код" := PyStr (py "A"); py "Цена" := PyStr (py "100.00") ]}.

(** ** Calling twice *)

(** Two calls in a row on the same state, the second one seeing what the
    first one left. *)
Definition twice {S A} (m : ST S A) : ST S (A * A) :=
  first ← m; second ← m; mret (first, second).

(** ** The grammar of integer texts *)

(** Digits with single underscores between them. *)
Inductive digit_run : pystr -> Prop :=
  | digit_run_one d :
      is_ascii_digit d = true -> digit_run [d]
  | digit_run_next d run :
      is_ascii_digit d = true -> digit_run run -> digit_run (d :: run)
  | digit_run_underscore d run :
      is_ascii_digit d = true -> digit_run run -> digit_run (d :: 95%N :: run).

(** The number a run of digits denotes, continuing from [start]. *)
Definition run_value (start : Z) (run : pystr) : Z :=
  fold_left
    (fun v c => if is_ascii_digit c then v * 10 + Z.of_N (c - 48) else v)
    run start.

(** The number of digits of a run, counting on from [start]. *)
Definition run_digits (start : N) (run : pystr) : N :=
  fold_left (fun n c => if is_ascii_digit c then (n + 1)%N else n) run start.

Definition blank (s : pystr) : Prop := Forall (fun c => Py_ISSPACE c = true) s.

(** The interpreter accepts a text of [digits] digits. *)
Definition within_digit_limit {interp : Interpreter} (digits : N) : Prop :=
  (digits <= MAX_STR_DIGITS_THRESHOLD
   ∨ int_max_str_digits = 0
   ∨ digits <= int_max_str_digits)%N.

(** [int_literal s z]: [s] is the text of the integer [z]: blanks, an
    optional sign, a run of digits no longer than the interpreter allows,
    blanks. *)
Inductive int_literal {interp : Interpreter} : pystr -> Z -> Prop :=
  | int_literal_unsigned lead run trail :
      blank lead -> digit_run run -> within_digit_limit (run_digits 0 run) ->
      blank trail ->
      int_literal (lead ++ run ++ trail) (run_value 0 run)
  | int_literal_plus lead run trail :
      blank lead -> digit_run run -> within_digit_limit (run_digits 0 run) ->
      blank trail ->
      int_literal (lead ++ 43%N :: run ++ trail) (run_value 0 run)
  | int_literal_minus lead run trail :
      blank lead -> digit_run run -> within_digit_limit (run_digits 0 run) ->
      blank trail ->
      int_literal (lead ++ 45%N :: run ++ trail) (- run_value 0 run).

(** The loop stops in front of [rest]. *)
Definition stops_at (rest : pystr) : Prop :=
  match rest with
  | [] => True
  | c :: _ => (c =? 95)%N = false ∧ is_ascii_digit c = false
  end.

(** What the loop has read when it stops: nothing, a run of digits, or,
    straight after a digit, an underscore and a run of digits. *)
Definition read_shape (prev : N) (read : pystr) : Prop :=
  (read = [] ∧ (prev =? 95)%N = false)
  ∨ digit_run read
  ∨ ((prev =? 95)%N = false ∧ exists run, read = 95%N :: run ∧ digit_run run).

(** [long_from_string] from the first digit on, the sign being read. *)
Definition digits_and_blanks {interp : Interpreter}
    (sign : Z) (s2 : pystr) : result Z :=
  if starts_with 95%N s2 then Raise ValueError
  else
    match scan_digits 0%N 0 0%N s2 with
    | None => Raise ValueError
    | Some (value, digits, rest) =>
        if (digits =? 0)%N then Raise ValueError
        else if ((MAX_STR_DIGITS_THRESHOLD <? digits)
                 && (0 <? int_max_str_digits)
                 && (int_max_str_digits <? digits))%N
        then Raise ValueError
        else match skip_spaces rest with
             | [] => Ok (sign * value)
             | _ :: _ => Raise ValueError
             end
    end.

Ltac decide_digit :=
  match goal with
  | |- context [is_ascii_digit ?c] => change (is_ascii_digit c) with true
  end; cbv iota.

(** ** Failures of a run *)

Definition error_of {A} (r : result A) : option exn :=
  match r with
  | Ok _ => None
  | Raise e => Some e
  end.

(** The exception that a recorded call raised, [history] being the events
    before it; [None] when it returned. *)
Definition failure_of (w : world) (history : list event) (ev : event)
  : option exn :=
  match ev with
  | Ev_get_offer_ids => error_of (get_offer_ids w history)
  | Ev_download_stock => error_of (download_stock w history)
  | Ev_update_stocks stocks => error_of (update_stocks w history stocks)
  | Ev_update_price prices => error_of (update_price w history prices)
  | Ev_print _ _ => None
  end.

(** What the handlers of [main] print for an exception. *)
Definition report (error : exn) : event :=
  if isinstance error ReadTimeout then
    Ev_print None (py "Превышено время ожидания...")
  else if isinstance error ConnectionError then
    Ev_print (Some error) (py "Ошибка соединения")
  else
    Ev_print (Some error) (py "ERROR_2").

(** The text of the diagnostic that an event prints. *)
Definition diagnostic (ev : event) : option pystr :=
  match ev with
  | Ev_print _ text => Some text
  | _ => None
  end.

(** Every call of the trace returned. *)
Definition all_succeeded (w : world) (tr : list event) : Prop :=
  forall (i : nat) ev, tr !! i = Some ev -> failure_of w (take i tr) ev = None.

(** Every call of the trace returned but the last one, which raised [e]. *)
Definition stopped_at_failure (w : world) (tr : list event) (e : exn) : Prop :=
  exists tr0 ev,
    tr = tr0 ++ [ev] ∧ all_succeeded w tr0 ∧ failure_of w tr0 ev = Some e.

(** A computation that stops at the first call that raises. *)
Definition orderly {A} (w : world) (m : IO A) : Prop :=
  forall s, all_succeeded w (trace s) ->
    match m s with
    | (Ok _, s') => all_succeeded w (trace s')
    | (Raise e, s') =>
        all_succeeded w (trace s') ∨ stopped_at_failure w (trace s') e
    end.

(** ** Sample runs *)

(** A run whose supplier sheet has a quantity that is no number. *)
Definition validation_failure_world : world :=
  {| env_str := Ok ();
     get_offer_ids := fun _ => Ok [py "A"];
     download_stock := fun _ => Ok [text_row "A" "abc" "100.00"];
     update_stocks := fun _ _ => Ok ();
     update_price := fun _ _ => Ok () |}.

(** A run whose catalogue request is answered with an HTTP error status. *)
Definition unexpected_failure_world : world :=
  {| env_str := Ok ();
     get_offer_ids := fun _ => Raise HTTPError;
     download_stock := fun _ => Ok [];
     update_stocks := fun _ _ => Ok ();
     update_price := fun _ _ => Ok () |}.

(** A run whose first submission of stocks times out. *)
Definition timeout_world : world :=
  {| env_str := Ok ();
     get_offer_ids := fun _ => Ok [py "A"; py "B"];
     download_stock := fun _ => Ok [text_row "A" "5" "100.00"];
     update_stocks := fun _ _ => Raise ReadTimeout;
     update_price := fun _ _ => Ok () |}.

(** A run whose environment lacks a credential: [env.str] raises before the
    [try] is entered. *)
Definition missing_credentials_world : world :=
  {| env_str := Raise ValueError;
     get_offer_ids := fun _ => Ok [py "A"];
     download_stock := fun _ => Ok [];
     update_stocks := fun _ _ => Ok ();
     update_price := fun _ _ => Ok () |}.

Definition end_to_end_row : dict := text_row "X" ">10" "1'234.50 р".

(** The catalogue holds "X", the supplier sheet the one row for "X", and
    every submission is accepted. *)
Definition end_to_end_world : world :=
  {| env_str := Ok ();
     get_offer_ids := fun _ => Ok [py "X"];
     download_stock := fun _ => Ok [end_to_end_row];
     update_stocks := fun _ _ => Ok ();
     update_price := fun _ _ => Ok () |}.

Definition is_price_submission (ev : event) : Prop :=
  match ev with
  | Ev_update_price _ => True
  | _ => False
  end.

(** ** Pages of the catalogue *)

(** The cursor that request [k] carries: [first] for the first request,
    then the "last_id" of the page before. *)
Definition cursor (first : pyobj) (pages : list Catalog.page) (k : nat) : pyobj :=
  match k with
  | O => first
  | S k' => default first (Catalog.last_id <$> pages !! k')
  end.

(** The products of a sequence of pages, in order. *)
Definition fetched (pages : list Catalog.page) : list (option dict) :=
  concat ((fun some_prod => default [] (Catalog.items some_prod)) <$> pages).

(** A product of the catalogue with its offer id. *)
Definition product (offer_id : string) : option dict :=
  Some {[ py "offer_id" := PyStr (py offer_id) ]}.

(** A catalogue of two products, served one per page. *)
Definition two_pages (requests : nat) (last_id : pyobj)
  : result (option Catalog.page) :=
  match requests with
  | O => Ok (Some (Catalog.mk_page (Some [product "A"]) (Some 2)
                                   (PyStr (py "c1"))))
  | _ => Ok (Some (Catalog.mk_page (Some [product "B"]) (Some 2)
                                   (PyStr (py "c2"))))
  end.

(** A catalogue that grew by one product between the count and the page:
    every page announces a total of 1, the first page holds two products. *)
Definition overshoot (requests : nat) (last_id : pyobj)
  : result (option Catalog.page) :=
  match requests with
  | O => Ok (Some (Catalog.mk_page (Some [product "A"; product "B"]) (Some 1)
                                   (PyStr (py "c1"))))
  | _ => Ok (Some (Catalog.mk_page (Some []) (Some 1) (PyStr (py "c1"))))
  end.

(** [pages] are the responses that a run of the loop gets, one per request:
    request [k] carries the cursor of the page before and is answered with
    page [k], whose items can be appended; the announced total equals the
    number of products collected so far at the last page and at no page
    before it. *)
Definition served (get_product_list : nat -> pyobj -> result (option Catalog.page))
    (pages : list Catalog.page) : Prop :=
  pages ≠ []
  ∧ forall (k : nat) some_prod,
      pages !! k = Some some_prod ->
      get_product_list k (cursor (PyStr []) pages k) = Ok (Some some_prod)
      ∧ (exists more, Catalog.items some_prod = Some more)
      ∧ (Catalog.total some_prod
         = Some (Z.of_nat (length (fetched (take (S k) pages))))
         <-> S k = length pages).

(** [offer_id] is what [product.get("offer_id")] returns. *)
Definition has_offer_id (product : option dict) (offer_id : pyobj) : Prop :=
  exists fields,
    product = Some fields ∧ offer_id = dict_get fields (py "offer_id").

(** * Properties *)

(** ** [price_conversion] *)

Lemma str_split_head (sep : N) (s : pystr) :
  exists piece pieces, str_split sep s = piece :: pieces.
Proof.
  induction s as [|c s IH]; simpl; [by eauto|].
  destruct (c =? sep)%N; [by eauto|].
  destruct IH as (piece & pieces & ->). by eauto.
Qed.

Lemma str_split_dot_first (s : pystr) :
  py_index (str_split 46%N s) 0 = Ok (before_first_dot s).
Proof.
  induction s as [|c s IH]; simpl; [done|].
  destruct (c =? 46)%N; [done|].
  destruct (str_split_head 46%N s) as (piece & pieces & Heq).
  rewrite Heq in IH |- *. unfold py_index in *. simpl in *.
  by inversion IH.
Qed.

Lemma re_sub_delete (s : pystr) :
  re_sub_not_0_9 [] s = filter (fun c => is_ascii_digit c = true) s.
Proof.
  unfold re_sub_not_0_9.
  induction s as [|c s IH]; [done|].
  rewrite filter_cons. cbn [flat_map]. rewrite IH.
  destruct (is_ascii_digit c) eqn:Hc.
  - by rewrite decide_True.
  - by rewrite decide_False.
Qed.

Lemma before_first_dot_split (p : pystr) :
  (46%N ∉ before_first_dot p)
  ∧ (p = before_first_dot p
     ∨ exists rest, p = before_first_dot p ++ 46%N :: rest).
Proof.
  induction p as [|c p [Hnot Hcases]]; simpl.
  - split; [apply not_elem_of_nil | by left].
  - destruct (c =? 46)%N eqn:Hc.
    + apply N.eqb_eq in Hc as ->.
      split; [apply not_elem_of_nil | right; by exists p].
    + apply N.eqb_neq in Hc. split.
      * rewrite not_elem_of_cons. split; [congruence | done].
      * destruct Hcases as [Heq | [rest Heq]].
        -- left. by rewrite <- Heq.
        -- right. exists rest. simpl. by rewrite <- Heq.
Qed.

Lemma before_first_dot_no_dot (p : pystr) :
  46%N ∉ p -> before_first_dot p = p.
Proof.
  induction p as [|c p IH]; simpl; [done|].
  rewrite not_elem_of_cons. intros [Hc Hp].
  destruct (c =? 46)%N eqn:E.
  - apply N.eqb_eq in E. congruence.
  - by rewrite IH.
Qed.

(** C6. For every string [p], [price_conversion p] returns the ASCII digits
    of [p] that stand strictly before its first '.' (of all of [p] when it
    has no '.'), so the result holds digits only; and
    [price_conversion("5'990.00 руб")] is ["5990"]. *)
Theorem price_conversion_digits_before_dot :
  (forall p : pystr,
      price_conversion (PyStr p) = Ok (digits_before_first_dot p)
      ∧ Forall (fun c => is_ascii_digit c = true) (digits_before_first_dot p)
      ∧ (46%N ∉ before_first_dot p)
      ∧ (p = before_first_dot p
         ∨ exists rest, p = before_first_dot p ++ 46%N :: rest))
  ∧ price_conversion (PyStr (py "5'990.00 руб")) = Ok (py "5990").
Proof.
  split; [|by vm_compute].
  intros p. split; [|split].
  - unfold price_conversion. rewrite str_split_dot_first. simpl.
    by rewrite re_sub_delete.
  - unfold digits_before_first_dot. apply Forall_forall.
    intros c Hc. by apply list_elem_of_filter in Hc as [Hc _].
  - apply before_first_dot_split.
Qed.

(** ** [divide] *)

Section Divide.
Context {A : Type}.
Implicit Types (s : list A) (m c k : nat).

Lemma range_length_from_0 (len m : nat) :
  (0 < m)%nat ->
  range_length 0 (Z.of_nat len) (Z.of_nat m) =
    if decide (len = O) then O else S ((len - 1) / m).
Proof.
  intros Hm. unfold range_length.
  destruct (Z.ltb_spec 0 (Z.of_nat m)); [|lia].
  destruct (Z.ltb_spec 0 (Z.of_nat len)); case_decide; try lia.
  replace (Z.of_nat len - 0 - 1) with (Z.of_nat (len - 1)) by lia.
  rewrite <- Nat2Z.inj_div. lia.
Qed.

Lemma py_slice_piece s m k :
  (0 < m)%nat -> (k * m <= length s)%nat ->
  py_slice s (0 + Z.of_nat k * Z.of_nat m)
             (0 + Z.of_nat k * Z.of_nat m + Z.of_nat m)
  = take m (drop (k * m) s).
Proof.
  intros Hm Hk. unfold py_slice, slice_bound.
  destruct (Z.ltb_spec (0 + Z.of_nat k * Z.of_nat m) 0); [lia|].
  destruct (Z.ltb_spec (0 + Z.of_nat k * Z.of_nat m + Z.of_nat m) 0); [lia|].
  replace (Z.to_nat (Z.min (0 + Z.of_nat k * Z.of_nat m) (Z.of_nat (length s))))
    with (k * m)%nat by lia.
  destruct (Z.le_ge_cases (0 + Z.of_nat k * Z.of_nat m + Z.of_nat m)
                          (Z.of_nat (length s))) as [Hle | Hge].
  - f_equal. lia.
  - rewrite !take_ge; [done | rewrite length_drop; lia | rewrite length_drop; lia].
Qed.

Lemma divide_pieces s m :
  (0 < m)%nat ->
  divide s (Z.of_nat m) =
    Ok (pieces m (if decide (length s = O) then O
                  else S ((length s - 1) / m)) s).
Proof.
  intros Hm. unfold divide, py_range.
  destruct (Z.eqb_spec (Z.of_nat m) 0); [lia|].
  rewrite range_length_from_0 by done.
  simpl. f_equal. unfold pieces. rewrite map_map.
  apply map_ext_in. intros k Hk. apply in_seq in Hk.
  apply py_slice_piece; [done|].
  case_decide; [lia|].
  pose proof (Nat.div_mod_eq (length s - 1) m). nia.
Qed.

Lemma concat_pieces s m c : concat (pieces m c s) = take (c * m) s.
Proof.
  unfold pieces. induction c as [|c IH]; [done|].
  rewrite seq_S, map_app, concat_app, IH. simpl.
  rewrite app_nil_r, take_take_drop. f_equal. lia.
Qed.

Lemma length_pieces s m c : length (pieces m c s) = c.
Proof. unfold pieces. by rewrite length_map, length_seq. Qed.

Lemma lookup_pieces s m c k chunk :
  pieces m c s !! k = Some chunk ->
  (k < c)%nat ∧ chunk = take m (drop (k * m) s).
Proof.
  unfold pieces. intros H.
  apply list_lookup_fmap_Some_1 in H as (j & -> & Hj).
  apply lookup_seq in Hj as [-> Hlt]. done.
Qed.

End Divide.

(** C8. For every list [s] and positive [n], [divide s n] returns chunks
    whose concatenation, in order, is [s]; every chunk but the last has
    exactly [n] elements, and the last holds the remainder: between 1 and
    [n] elements, namely what is left of [s] after the full chunks. *)
Theorem divide_concat_and_chunk_lengths {A : Type} (s : list A) (n : Z) :
  0 < n ->
  exists chunks : list (list A),
    divide s n = Ok chunks
    ∧ concat chunks = s
    ∧ (forall (i : nat) chunk,
          chunks !! i = Some chunk -> (S i < length chunks)%nat ->
          Z.of_nat (length chunk) = n)
    ∧ (forall chunk,
          last chunks = Some chunk ->
          0 < Z.of_nat (length chunk) <= n
          ∧ Z.of_nat (length chunk) =
              Z.of_nat (length s) - n * (Z.of_nat (length chunks) - 1)).
Proof.
  intros Hn.
  set (m := Z.to_nat n). assert (Hm : (0 < m)%nat) by lia.
  replace n with (Z.of_nat m) by lia.
  eexists. split; [by apply divide_pieces|].
  set (c := if decide (length s = O) then O else S ((length s - 1) / m)).
  assert (Hc : (length s <= c * m)%nat
               ∧ (c = O ∨ ((c - 1) * m < length s)%nat)).
  { subst c. case_decide; [lia|].
    pose proof (Nat.div_mod_eq (length s - 1) m).
    pose proof (Nat.mod_upper_bound (length s - 1) m). nia. }
  destruct Hc as [Hc1 Hc2].
  split; [|split].
  - rewrite concat_pieces. by apply take_ge.
  - intros i chunk Hi Hlt. rewrite length_pieces in Hlt.
    apply lookup_pieces in Hi as [_ ->].
    rewrite length_take, length_drop. nia.
  - intros chunk Hlast. rewrite last_lookup, length_pieces in Hlast.
    rewrite length_pieces.
    apply lookup_pieces in Hlast as [Hlt ->].
    rewrite length_take, length_drop. nia.
Qed.

(** C8 on a list of seven elements cut by three. *)
Lemma divide_concat_and_chunk_lengths_witness :
  0 < 3
  ∧ exists chunks : list (list Z),
      divide [1; 2; 3; 4; 5; 6; 7] 3 = Ok chunks
      ∧ concat chunks = [1; 2; 3; 4; 5; 6; 7]
      ∧ (forall (i : nat) chunk,
            chunks !! i = Some chunk -> (S i < length chunks)%nat ->
            Z.of_nat (length chunk) = 3)
      ∧ (forall chunk,
            last chunks = Some chunk ->
            0 < Z.of_nat (length chunk) <= 3
            ∧ Z.of_nat (length chunk) =
                Z.of_nat (length [1; 2; 3; 4; 5; 6; 7])
                - 3 * (Z.of_nat (length chunks) - 1)).
Proof.
  split; [lia|].
  apply (divide_concat_and_chunk_lengths [1; 2; 3; 4; 5; 6; 7] 3). lia.
Defined.

(** ** The state monad *)

Lemma bind_run {S A B} (m : ST S A) (k : A -> ST S B) (s : S) :
  (m ≫= k) s =
    match m s with
    | (Ok a, s') => k a s'
    | (Raise e, s') => (Raise e, s')
    end.
Proof. reflexivity. Qed.

Lemma for_each_cons {S A B} (x : A) (l : list A) (acc : B)
    (body : B -> A -> ST S B) (s : S) :
  for_each (x :: l) acc body s =
    match body acc x s with
    | (Ok acc', s') => for_each l acc' body s'
    | (Raise e, s') => (Raise e, s')
    end.
Proof. reflexivity. Qed.

Lemma for_each_append {S A B} (f : A -> B) (l : list A) (acc : list B) (s : S) :
  for_each l acc (fun acc x => mret (acc ++ [f x])) s = (Ok (acc ++ (f <$> l)), s).
Proof.
  revert acc. induction l as [|x l IH]; intros acc.
  - by rewrite app_nil_r.
  - rewrite for_each_cons. cbv beta. unfold mret at 1, ST_ret at 1.
    rewrite IH. by rewrite <- app_assoc.
Qed.

(** ** The list object *)

Lemma filter_all {A} (P : A -> Prop) `{!forall x, Decision (P x)} (l : list A) :
  (forall x, x ∈ l -> P x) -> filter P l = l.
Proof.
  induction l as [|y l IH]; intros Hall; [done|].
  rewrite filter_cons_True by (apply Hall; left).
  f_equal. apply IH. intros x Hx. apply Hall. by right.
Qed.

Lemma remove_first_elem_of (x : pystr) (l : list pystr) :
  x ∈ l -> exists l', remove_first x l = Some l' ∧ l ≡ₚ x :: l'.
Proof.
  induction l as [|y l IH]; [by intros ?%elem_of_nil|].
  intros Hx. simpl. case_decide as Hxy.
  - subst. by eexists.
  - apply elem_of_cons in Hx as [?|Hx]; [done|].
    destruct (IH Hx) as (l' & -> & Hperm). eexists. split; [done|].
    rewrite Hperm. apply Permutation_swap.
Qed.

Lemma remove_first_NoDup (x : pystr) (l l' : list pystr) :
  NoDup l -> remove_first x l = Some l' -> l' = filter (fun y => y ≠ x) l.
Proof.
  revert l'. induction l as [|y l IH]; intros l' Hnd; [done|].
  apply NoDup_cons in Hnd as [Hy Hnd]. simpl. case_decide as Hxy.
  - intros [= <-]. subst y. rewrite filter_cons_False by tauto.
    symmetry. apply filter_all. intros z Hz ->. done.
  - destruct (remove_first x l) as [l0|] eqn:Hrm; [|done].
    intros [= <-]. rewrite filter_cons_True by congruence.
    f_equal. by apply IH.
Qed.

Lemma filter_ext_in {A} (P Q : A -> Prop)
    `{!forall x, Decision (P x)} `{!forall x, Decision (Q x)} (l : list A) :
  (forall x, x ∈ l -> P x <-> Q x) -> filter P l = filter Q l.
Proof.
  induction l as [|y l IH]; intros Hext; [done|].
  rewrite !filter_cons.
  rewrite IH by (intros x Hx; apply Hext; by right).
  assert (Hy : P y <-> Q y) by (apply Hext; left).
  destruct (decide (P y)), (decide (Q y)); tauto || done.
Qed.

(** ** [create_stocks] *)

Section ReconciliationFacts.
Context {interp : Interpreter}.
Implicit Types (watch : dict) (ids : list pystr).

Lemma create_stocks_unfold (rows : list dict) ids :
  create_stocks rows ids =
    match for_each rows [] stocks_step ids with
    | (Ok stocks, ids') => (Ok (stocks ++ (zero_stock <$> ids')), ids')
    | (Raise e, ids') => (Raise e, ids')
    end.
Proof.
  unfold create_stocks. rewrite bind_run.
  change (for_each rows [] _ ids) with (for_each rows [] stocks_step ids).
  destruct (for_each rows [] stocks_step ids) as [[stocks|e] ids']; [|done].
  rewrite bind_run. cbn [get].
  apply (for_each_append zero_stock).
Qed.

Lemma stocks_step_run stocks watch ids :
  stocks_step stocks watch ids =
    if bool_decide (code watch ∈ ids) then
      match classify_stock (quantity watch) with
      | Ok stock =>
          match remove_first (code watch) ids with
          | Some ids' => (Ok (stocks ++ [Stock.mk (code watch) stock]), ids')
          | None => (Raise ValueError, ids)
          end
      | Raise e => (Raise e, ids)
      end
    else (Ok stocks, ids).
Proof.
  unfold stocks_step. rewrite bind_run. unfold list_contains.
  case_bool_decide; [|done].
  rewrite bind_run. unfold lift.
  destruct (classify_stock (quantity watch)); [|done].
  rewrite bind_run. unfold list_remove.
  by destruct (remove_first (code watch) ids).
Qed.

Lemma from_first_row_later rows watch0 update :
  code watch0 ≠ Stock.offer_id update ->
  from_first_row rows update -> from_first_row (watch0 :: rows) update.
Proof.
  intros Hne (i & watch & Hi & Hcode & Hcls & Hfirst).
  exists (S i), watch. repeat split; try done.
  intros [|j] earlier Hj Hlook.
  - simpl in Hlook. injection Hlook as <-. congruence.
  - simpl in Hlook. apply (Hfirst j); [lia | done].
Qed.

Lemma stocks_loop_spec (rows : list dict) :
  forall stocks ids stocks' ids',
    NoDup ids ->
    for_each rows stocks stocks_step ids = (Ok stocks', ids') ->
    exists matched,
      stocks' = stocks ++ matched
      ∧ (Stock.offer_id <$> matched) ++ ids' ≡ₚ ids
      ∧ ids' = filter (fun id => id ∉ code <$> rows) ids
      ∧ (Stock.offer_id <$> matched) `sublist_of` (code <$> rows)
      ∧ Forall (from_first_row rows) matched.
Proof.
  induction rows as [|watch rows IH]; intros stocks ids stocks' ids' Hnd.
  - intros [= <- <-]. exists []. rewrite app_nil_r. repeat split; try done.
    symmetry. apply filter_all. intros id _. apply not_elem_of_nil.
  - rewrite for_each_cons, stocks_step_run.
    case_bool_decide as Hin.
    + destruct (classify_stock (quantity watch)) as [stock|e] eqn:Hcls; [|done].
      destruct (remove_first_elem_of _ _ Hin) as (ids1 & Hrm & Hperm).
      rewrite Hrm. intros Hloop.
      pose proof (remove_first_NoDup _ _ _ Hnd Hrm) as Hids1.
      assert (Hnd1 : NoDup ids1).
      { rewrite Hperm in Hnd. by apply NoDup_cons in Hnd as [_ ?]. }
      assert (Hout : code watch ∉ ids1).
      { rewrite Hperm in Hnd. by apply NoDup_cons in Hnd as [? _]. }
      destruct (IH _ _ _ _ Hnd1 Hloop) as (matched & -> & Hp & Hres & Hsub & Hfirst).
      exists (Stock.mk (code watch) stock :: matched).
      split; [by rewrite <- app_assoc|]. split; [|split; [|split]].
      * simpl. by rewrite Hp, Hperm.
      * rewrite Hres, Hids1, list_filter_filter. apply filter_ext_in.
        intros id _. simpl. rewrite not_elem_of_cons. tauto.
      * simpl. by apply sublist_skip.
      * constructor.
        -- exists O, watch. repeat split; try done. intros j ? Hj. lia.
        -- apply Forall_forall. intros update Hupdate.
           rewrite Forall_forall in Hfirst.
           apply from_first_row_later; [|by apply Hfirst].
           intros Heq. apply Hout. rewrite <- Hp, Heq.
           apply elem_of_app. left. by apply list_elem_of_fmap_2.
    + intros Hloop.
      destruct (IH _ _ _ _ Hnd Hloop) as (matched & -> & Hp & Hres & Hsub & Hfirst).
      exists matched. split; [done|]. split; [done|]. split; [|split].
      * rewrite Hres. apply filter_ext_in.
        intros id Hid. simpl. rewrite not_elem_of_cons.
        split; [|tauto]. intros Hn. split; [congruence | done].
      * simpl. by apply sublist_cons.
      * apply Forall_forall. intros update Hupdate.
        rewrite Forall_forall in Hfirst.
        apply from_first_row_later; [|by apply Hfirst].
        intros Heq. apply Hin. rewrite <- Hp, Heq.
        apply elem_of_app. left. by apply list_elem_of_fmap_2.
Qed.

Lemma stocks_loop_no_match (rows : list dict) stocks ids :
  (forall watch, watch ∈ rows -> code watch ∉ ids) ->
  for_each rows stocks stocks_step ids = (Ok stocks, ids).
Proof.
  induction rows as [|watch rows IH]; intros Hno; [done|].
  rewrite for_each_cons, stocks_step_run.
  rewrite bool_decide_eq_false_2 by (apply Hno; left).
  apply IH. intros ? ?. apply Hno. by right.
Qed.

Lemma stocks_loop_returns (rows : list dict) :
  forall stocks ids,
    Forall (fun watch => exists z, classify_stock (quantity watch) = Ok z) rows ->
    exists stocks' ids', for_each rows stocks stocks_step ids = (Ok stocks', ids').
Proof.
  induction rows as [|watch rows IH]; intros stocks ids Hall; [by eexists _, _|].
  apply Forall_cons in Hall as [[z Hz] Hall].
  rewrite for_each_cons, stocks_step_run, Hz.
  case_bool_decide as Hin; [|by apply IH].
  destruct (remove_first_elem_of _ _ Hin) as (ids1 & -> & _). by apply IH.
Qed.

Lemma create_stocks_spec (rows : list dict) ids stocks ids' :
  NoDup ids ->
  create_stocks rows ids = (Ok stocks, ids') ->
  exists matched,
    stocks = matched ++ (zero_stock <$> ids')
    ∧ (Stock.offer_id <$> matched) ++ ids' ≡ₚ ids
    ∧ ids' = filter (fun id => id ∉ code <$> rows) ids
    ∧ (Stock.offer_id <$> matched) `sublist_of` (code <$> rows)
    ∧ Forall (from_first_row rows) matched.
Proof.
  intros Hnd. rewrite create_stocks_unfold.
  destruct (for_each rows [] stocks_step ids) as [[stocks0|e] ids0] eqn:Hloop;
    [|done].
  intros [= <- <-].
  destruct (stocks_loop_spec _ _ _ _ _ Hnd Hloop) as (matched & -> & Hrest).
  by exists matched.
Qed.

Lemma residual_has_no_code (rows : list dict) ids watch :
  watch ∈ rows -> code watch ∉ filter (fun id => id ∉ code <$> rows) ids.
Proof.
  intros Hw [Hnot _]%list_elem_of_filter.
  apply Hnot. by apply list_elem_of_fmap_2.
Qed.

(** *** [create_prices] *)

Lemma create_prices_unfold (rows : list dict) :
  create_prices rows = for_each rows [] prices_step.
Proof. reflexivity. Qed.

Lemma prices_step_run prices watch ids :
  prices_step prices watch ids =
    if bool_decide (code watch ∈ ids) then
      match price_conversion (price_cell watch) with
      | Ok converted =>
          (Ok (prices ++ [price_entry (code watch) converted]), ids)
      | Raise e => (Raise e, ids)
      end
    else (Ok prices, ids).
Proof.
  unfold prices_step. rewrite bind_run. unfold list_contains.
  case_bool_decide; [|done].
  rewrite bind_run. unfold lift.
  by destruct (price_conversion (price_cell watch)).
Qed.

Lemma prices_loop_frame (rows : list dict) :
  forall prices ids, (for_each rows prices prices_step ids).2 = ids.
Proof.
  induction rows as [|watch rows IH]; intros prices ids; [done|].
  rewrite for_each_cons, prices_step_run.
  case_bool_decide; [|by apply IH].
  destruct (price_conversion (price_cell watch)); [by apply IH | done].
Qed.

Lemma prices_loop_spec (rows : list dict) :
  forall prices ids prices' ids',
    for_each rows prices prices_step ids = (Ok prices', ids') ->
    exists entries,
      prices' = prices ++ entries
      ∧ Forall2 priced_from entries (filter (fun watch => code watch ∈ ids) rows).
Proof.
  induction rows as [|watch rows IH]; intros prices ids prices' ids'.
  - intros [= <- <-]. exists []. by rewrite app_nil_r.
  - rewrite for_each_cons, prices_step_run, filter_cons.
    case_bool_decide as Hin.
    + rewrite decide_True by done.
      destruct (price_conversion (price_cell watch)) as [converted|e] eqn:Hc;
        [|done].
      intros Hloop. destruct (IH _ _ _ _ Hloop) as (entries & -> & Hall).
      exists (price_entry (code watch) converted :: entries).
      split; [by rewrite <- app_assoc|].
      constructor; [by exists converted | done].
    + rewrite decide_False by done. apply IH.
Qed.

Lemma prices_loop_no_match (rows : list dict) prices ids :
  (forall watch, watch ∈ rows -> code watch ∉ ids) ->
  for_each rows prices prices_step ids = (Ok prices, ids).
Proof.
  induction rows as [|watch rows IH]; intros Hno; [done|].
  rewrite for_each_cons, prices_step_run.
  rewrite bool_decide_eq_false_2 by (apply Hno; left).
  apply IH. intros ? ?. apply Hno. by right.
Qed.

End ReconciliationFacts.

(** ** [create_stocks]: one update per offer id *)

Lemma offer_id_zero_stock (ids : list pystr) :
  Stock.offer_id <$> (zero_stock <$> ids) = ids.
Proof. induction ids as [|id ids IH]; [done|]. rewrite !fmap_cons. by rewrite IH. Qed.

(** C1. For a duplicate-free list of catalogue offer ids, the output of
    [create_stocks] holds exactly one update per catalogue id (its offer ids
    are a permutation of the catalogue, without duplicates and without
    omissions).  It is made of the updates of the matching rows, in row
    order, each from the first row that carries its code, followed by an
    update with stock 0 for every id left in the list, which are the ids no
    row mentions. *)
Theorem create_stocks_one_update_per_offer_id {interp : Interpreter}
    (rows : list dict) (ids : list pystr)
    (stocks : list Stock.t) (ids' : list pystr) :
  NoDup ids ->
  create_stocks rows ids = (Ok stocks, ids') ->
  Stock.offer_id <$> stocks ≡ₚ ids
  ∧ NoDup (Stock.offer_id <$> stocks)
  ∧ (forall id, id ∈ Stock.offer_id <$> stocks <-> id ∈ ids)
  ∧ exists matched,
      stocks = matched ++ (zero_stock <$> ids')
      ∧ Forall (from_first_row rows) matched
      ∧ (Stock.offer_id <$> matched) `sublist_of` (code <$> rows)
      ∧ (forall watch, watch ∈ rows -> code watch ∈ ids ->
                       code watch ∈ Stock.offer_id <$> matched)
      ∧ ids' = filter (fun id => id ∉ code <$> rows) ids.
Proof.
  intros Hnd Hrun.
  destruct (create_stocks_spec _ _ _ _ Hnd Hrun)
    as (matched & -> & Hperm & Hres & Hsub & Hfirst).
  assert (Hids : Stock.offer_id <$> matched ++ (zero_stock <$> ids') ≡ₚ ids).
  { by rewrite fmap_app, offer_id_zero_stock. }
  split; [done|]. split; [by rewrite Hids|]. split; [by intros; rewrite Hids|].
  exists matched. repeat split; try done.
  intros watch Hw Hin. rewrite <- Hperm in Hin.
  apply elem_of_app in Hin as [Hin|Hin]; [done|].
  rewrite Hres in Hin. by apply residual_has_no_code in Hin.
Qed.

(** C1 on the sample rows. *)
Lemma create_stocks_one_update_per_offer_id_witness :
  NoDup sample_ids
  ∧ create_stocks (interp := plain_interpreter) sample_rows sample_ids =
      (Ok [Stock.mk (py "A") 5; Stock.mk (py "B") 0; Stock.mk (py "C") 0],
       [py "B"; py "C"])
  ∧ Stock.offer_id <$>
      [Stock.mk (py "A") 5; Stock.mk (py "B") 0; Stock.mk (py "C") 0]
    ≡ₚ sample_ids.
Proof.
  assert (Hnd : NoDup sample_ids) by (apply (bool_decide_unpack _); vm_compute; exact I).
  assert (Hrun : create_stocks (interp := plain_interpreter) sample_rows sample_ids =
      (Ok [Stock.mk (py "A") 5; Stock.mk (py "B") 0; Stock.mk (py "C") 0],
       [py "B"; py "C"])) by (vm_compute; reflexivity).
  split; [exact Hnd|]. split; [exact Hrun|].
  exact (proj1 (create_stocks_one_update_per_offer_id _ _ _ _ Hnd Hrun)).
Defined.

(** ** [create_prices] *)

Lemma priced_from_offer_ids (entries : list Price.t) (rows : list dict) :
  Forall2 priced_from entries rows -> Price.offer_id <$> entries = code <$> rows.
Proof.
  induction 1 as [|entry watch entries rows (converted & _ & ->) _ IH]; [done|].
  rewrite !fmap_cons. by rewrite IH.
Qed.

Lemma filter_codes (ids : list pystr) (rows : list dict) :
  code <$> filter (fun watch => code watch ∈ ids) rows
  = filter (fun c => c ∈ ids) (code <$> rows).
Proof.
  induction rows as [|watch rows IH]; [done|].
  rewrite fmap_cons, !filter_cons.
  destruct (decide (code watch ∈ ids)); [rewrite fmap_cons|]; by rewrite IH.
Qed.

(** C2 (amended). [create_prices] leaves the list of offer ids as it is and
    emits one update per supplier row whose code is in the catalogue, in row
    order and with the converted price of that row: rows whose code is in no
    catalogue id contribute nothing, catalogue ids that no row mentions get
    no entry, and an id gets exactly one update when the matching rows carry
    pairwise different codes.  For the catalogue "A", "B" and the single row
    for "A" priced "100.00" the result is the one entry for "A" with price
    "100", currency "RUB", auto_action_enabled "UNKNOWN" and old_price "0". *)
Theorem create_prices_one_update_per_matching_row :
  (forall (rows : list dict) (ids : list pystr)
          (prices : list Price.t) (ids' : list pystr),
      create_prices rows ids = (Ok prices, ids') ->
      ids' = ids
      ∧ Forall2 priced_from prices (filter (fun watch => code watch ∈ ids) rows)
      ∧ Price.offer_id <$> prices = filter (fun c => c ∈ ids) (code <$> rows)
      ∧ (forall id, id ∈ Price.offer_id <$> prices
                    <-> id ∈ ids ∧ id ∈ code <$> rows)
      ∧ (NoDup (filter (fun c => c ∈ ids) (code <$> rows)) ->
         NoDup (Price.offer_id <$> prices)))
  ∧ create_prices [price_row_A] [py "A"; py "B"] =
      (Ok [Price.mk (py "UNKNOWN") (py "RUB") (py "A") (py "0") (py "100")],
       [py "A"; py "B"]).
Proof.
  split; [|by vm_compute].
  intros rows ids prices ids' Hrun.
  pose proof (prices_loop_frame rows [] ids) as Hframe.
  rewrite create_prices_unfold in Hrun. rewrite Hrun in Hframe. simpl in Hframe.
  destruct (prices_loop_spec _ _ _ _ _ Hrun) as (entries & -> & Hall).
  simpl.
  assert (Hids : Price.offer_id <$> entries
                 = filter (fun c => c ∈ ids) (code <$> rows)).
  { by rewrite (priced_from_offer_ids _ _ Hall), filter_codes. }
  split; [done|]. split; [done|]. split; [done|]. split.
  - intros id. rewrite Hids, list_elem_of_filter. tauto.
  - by rewrite Hids.
Qed.

(** C2 (amended) on the sample rows, where "A" comes twice. *)
Lemma create_prices_one_update_per_matching_row_witness :
  create_prices sample_rows sample_ids =
    (Ok [price_entry (py "A") (py "100"); price_entry (py "A") (py "120")],
     sample_ids)
  ∧ Price.offer_id <$>
      [price_entry (py "A") (py "100"); price_entry (py "A") (py "120")]
    = filter (fun c => c ∈ sample_ids) (code <$> sample_rows).
Proof.
  assert (Hrun : create_prices sample_rows sample_ids =
    (Ok [price_entry (py "A") (py "100"); price_entry (py "A") (py "120")],
     sample_ids)) by (vm_compute; reflexivity).
  split; [exact Hrun|].
  exact (proj1 (proj2 (proj2
    (proj1 create_prices_one_update_per_matching_row _ _ _ _ Hrun)))).
Defined.

(** C2, as stated, fails: two supplier rows with the code "A" give two
    updates for the catalogue id "A". *)
Lemma create_prices_repeats_an_offer_id :
  exists prices : list Price.t,
    create_prices [text_row "A" "5" "100.00"; text_row "A" "7" "120.00"]
                  [py "A"] = (Ok prices, [py "A"])
    ∧ length (filter (fun update => Price.offer_id update = py "A") prices)
      = 2%nat
    ∧ ~ NoDup (Price.offer_id <$> prices).
Proof.
  eexists. split; [vm_compute; reflexivity|]. split; [by vm_compute|].
  intros Hnd. apply NoDup_cons in Hnd as [Hnot _]. apply Hnot. left.
Qed.

(** ** Calling the reconciliation again on the same list object *)

Lemma create_prices_on_residual {interp : Interpreter}
    (rows : list dict) (ids : list pystr)
    (stocks : list Stock.t) (ids' : list pystr) :
  NoDup ids ->
  create_stocks rows ids = (Ok stocks, ids') ->
  create_prices rows ids' = (Ok [], ids').
Proof.
  intros Hnd Hrun.
  destruct (create_stocks_spec _ _ _ _ Hnd Hrun) as (_ & _ & _ & -> & _).
  rewrite create_prices_unfold. apply prices_loop_no_match.
  intros watch Hw. by apply residual_has_no_code.
Qed.

Lemma twice_run {S A} (m : ST S A) (s : S) :
  twice m s =
    match m s with
    | (Ok first, s') =>
        match m s' with
        | (Ok second, s'') => (Ok (first, second), s'')
        | (Raise e, s'') => (Raise e, s'')
        end
    | (Raise e, s') => (Raise e, s')
    end.
Proof.
  unfold twice. rewrite bind_run. destruct (m s) as [[first|e] s']; [|done].
  rewrite bind_run. by destruct (m s') as [[second|e] s''].
Qed.

(** C4 (amended). [create_prices] never changes the list of offer ids, so
    calling it again on the same list gives the same output.
    [create_stocks] removes the matched ids from the list it is given: on a
    duplicate-free list, a second call on the same list returns only the ids
    that were left, each with stock 0, and removes nothing more; that is the
    output of the first call exactly when no supplier row matched the
    catalogue. *)
Theorem reconciliation_called_twice {interp : Interpreter} :
  (forall (rows : list dict) (ids : list pystr),
      twice (create_prices rows) ids =
        match create_prices rows ids with
        | (Ok prices, _) => (Ok (prices, prices), ids)
        | (Raise e, _) => (Raise e, ids)
        end)
  ∧ (forall (rows : list dict) (ids : list pystr)
            (stocks : list Stock.t) (ids' : list pystr),
        NoDup ids ->
        create_stocks rows ids = (Ok stocks, ids') ->
        twice (create_stocks rows) ids =
          (Ok (stocks, zero_stock <$> ids'), ids')
        ∧ (zero_stock <$> ids' = stocks
           <-> forall watch, watch ∈ rows -> code watch ∉ ids)).
Proof.
  split.
  - intros rows ids. rewrite twice_run.
    pose proof (prices_loop_frame rows [] ids) as Hframe.
    rewrite <- create_prices_unfold in Hframe.
    destruct (create_prices rows ids) as [[prices|e] ids'] eqn:Hrun;
      simpl in Hframe; subst ids'; [|done].
    by rewrite Hrun.
  - intros rows ids stocks ids' Hnd Hrun.
    destruct (create_stocks_spec _ _ _ _ Hnd Hrun)
      as (matched & Hstocks & Hperm & Hres & _).
    assert (Hagain : create_stocks rows ids' = (Ok (zero_stock <$> ids'), ids')).
    { rewrite create_stocks_unfold, stocks_loop_no_match; [done|].
      intros watch Hw. rewrite Hres. by apply residual_has_no_code. }
    split; [by rewrite twice_run, Hrun, Hagain|].
    split.
    + intros Heq watch Hw Hin.
      assert (matched = []) as ->.
      { apply (app_inv_tail (zero_stock <$> ids')). by rewrite <- Hstocks. }
      simpl in Hperm. rewrite <- Hperm, Hres in Hin.
      by apply (residual_has_no_code rows ids watch).
    + intros Hno. rewrite create_stocks_unfold in Hrun.
      rewrite stocks_loop_no_match in Hrun by done.
      by injection Hrun as <- <-.
Qed.

(** C4 (amended) on the sample rows. *)
Lemma reconciliation_called_twice_witness :
  NoDup sample_ids
  ∧ create_stocks (interp := plain_interpreter) sample_rows sample_ids =
      (Ok [Stock.mk (py "A") 5; Stock.mk (py "B") 0; Stock.mk (py "C") 0],
       [py "B"; py "C"])
  ∧ twice (create_stocks (interp := plain_interpreter) sample_rows) sample_ids =
      (Ok ([Stock.mk (py "A") 5; Stock.mk (py "B") 0; Stock.mk (py "C") 0],
           zero_stock <$> [py "B"; py "C"]),
       [py "B"; py "C"]).
Proof.
  assert (Hnd : NoDup sample_ids) by (apply (bool_decide_unpack _); vm_compute; exact I).
  assert (Hrun : create_stocks (interp := plain_interpreter) sample_rows sample_ids =
      (Ok [Stock.mk (py "A") 5; Stock.mk (py "B") 0; Stock.mk (py "C") 0],
       [py "B"; py "C"])) by (vm_compute; reflexivity).
  split; [exact Hnd|]. split; [exact Hrun|].
  exact (proj1 (proj2 (reconciliation_called_twice (interp := plain_interpreter))
                      _ _ _ _ Hnd Hrun)).
Defined.

(** C4, as stated, fails: the second of two calls of [create_stocks] on the
    same list of offer ids sees the list without "A" and returns nothing,
    where the first call returned the update for "A". *)
Lemma create_stocks_second_call_differs :
  twice (create_stocks (interp := plain_interpreter) [text_row "A" "5" "100.00"])
        [py "A"]
  = (Ok ([Stock.mk (py "A") 5], []), []).
Proof. by vm_compute. Qed.

(** ** [int(str)] against the grammar of integer texts *)

Lemma digit_bounds (c : N) : is_ascii_digit c = true <-> (48 <= c <= 57)%N.
Proof.
  unfold is_ascii_digit. rewrite andb_true_iff, !N.leb_le. tauto.
Qed.

Lemma digit_not_space (c : N) : is_ascii_digit c = true -> Py_ISSPACE c = false.
Proof.
  intros Hc%digit_bounds. unfold Py_ISSPACE.
  apply orb_false_iff. split; [apply N.eqb_neq; lia|].
  apply andb_false_iff. right. apply N.leb_gt. lia.
Qed.

Lemma digit_not (c k : N) :
  (k < 48 ∨ 57 < k)%N -> is_ascii_digit c = true -> (c =? k)%N = false.
Proof. intros Hk Hc%digit_bounds. apply N.eqb_neq. lia. Qed.

Lemma run_value_cons (v : Z) (c : N) (run : pystr) :
  run_value v (c :: run) =
    run_value (if is_ascii_digit c then v * 10 + Z.of_N (c - 48) else v) run.
Proof. reflexivity. Qed.

Lemma run_digits_cons (n : N) (c : N) (run : pystr) :
  run_digits n (c :: run) =
    run_digits (if is_ascii_digit c then (n + 1)%N else n) run.
Proof. reflexivity. Qed.

Lemma run_value_nonneg (run : pystr) (v : Z) : 0 <= v -> 0 <= run_value v run.
Proof.
  revert v. induction run as [|c run IH]; intros v Hv; [done|].
  rewrite run_value_cons. apply IH. destruct (is_ascii_digit c); lia.
Qed.

Lemma run_digits_mono (run : pystr) (n : N) : (n <= run_digits n run)%N.
Proof.
  revert n. induction run as [|c run IH]; intros n; [done|].
  rewrite run_digits_cons. etrans; [|apply IH]. destruct (is_ascii_digit c); lia.
Qed.

Lemma run_digits_length (run : pystr) (n : N) :
  (run_digits n run <= n + N.of_nat (length run))%N.
Proof.
  revert n. induction run as [|c run IH]; intros n; [simpl; lia|].
  rewrite run_digits_cons. etrans; [apply IH|].
  destruct (is_ascii_digit c); simpl length; lia.
Qed.

Lemma digit_run_head (run : pystr) :
  digit_run run -> exists d rest, run = d :: rest ∧ is_ascii_digit d = true.
Proof. destruct 1; eauto. Qed.

Lemma digit_run_digits (run : pystr) (n : N) :
  digit_run run -> (n < run_digits n run)%N.
Proof.
  intros (d & rest & -> & Hd)%digit_run_head.
  rewrite run_digits_cons, Hd.
  pose proof (run_digits_mono rest (n + 1)). lia.
Qed.

(** *** Blanks *)

Lemma skip_spaces_blank (lead s : pystr) :
  blank lead -> skip_spaces (lead ++ s) = skip_spaces s.
Proof. induction 1 as [|c lead Hc _ IH]; [done|]. simpl. by rewrite Hc. Qed.

Lemma skip_spaces_stays (c : N) (s : pystr) :
  Py_ISSPACE c = false -> skip_spaces (c :: s) = c :: s.
Proof. intros Hc. simpl. by rewrite Hc. Qed.

Lemma skip_spaces_all (s : pystr) : blank s -> skip_spaces s = [].
Proof. intros Hs. rewrite <- (app_nil_r s). by rewrite skip_spaces_blank. Qed.

Lemma skip_spaces_split (s : pystr) :
  exists lead, blank lead ∧ s = lead ++ skip_spaces s.
Proof.
  induction s as [|c s (lead & Hlead & Heq)].
  { exists []. split; [constructor | done]. }
  simpl. destruct (Py_ISSPACE c) eqn:Hc.
  - exists (c :: lead). split; [by constructor|]. simpl. by rewrite <- Heq.
  - exists []. split; [constructor | done].
Qed.

Lemma skip_spaces_head (s : pystr) (c : N) (rest : pystr) :
  skip_spaces s = c :: rest -> Py_ISSPACE c = false.
Proof.
  induction s as [|c' s IH]; [done|]. simpl.
  destruct (Py_ISSPACE c') eqn:Hc; [done|]. by intros [= <- _].
Qed.

Lemma skip_spaces_nil (s : pystr) : skip_spaces s = [] -> blank s.
Proof.
  intros Hs. destruct (skip_spaces_split s) as (lead & Hlead & Heq).
  rewrite Hs, app_nil_r in Heq. by subst.
Qed.

(** *** The digit loop *)

Lemma blank_stops (trail : pystr) : blank trail -> stops_at trail.
Proof.
  destruct 1 as [|c trail Hc _]; [done|]. simpl.
  unfold Py_ISSPACE in Hc. unfold is_ascii_digit.
  apply orb_true_iff in Hc as [Hc%N.eqb_eq | [H1%N.leb_le H2%N.leb_le]%andb_true_iff].
  - subst c. done.
  - split; [apply N.eqb_neq; lia|].
    apply andb_false_iff. left. apply N.leb_gt. lia.
Qed.

Lemma scan_digits_stop (prev : N) (value : Z) (digits : N) (rest : pystr) :
  (prev =? 95)%N = false -> stops_at rest ->
  scan_digits prev value digits rest = Some (value, digits, rest).
Proof.
  intros Hprev Hstop. destruct rest as [|c rest]; simpl; rewrite ?Hprev; [done|].
  by destruct Hstop as [-> ->].
Qed.

Lemma scan_digits_digit (prev : N) (value : Z) (digits : N) (d : N) (s : pystr) :
  is_ascii_digit d = true ->
  scan_digits prev value digits (d :: s) =
    scan_digits d (value * 10 + Z.of_N (d - 48)) (digits + 1)%N s.
Proof.
  intros Hd. simpl. rewrite (digit_not d 95) by (done || lia). by rewrite Hd.
Qed.

Lemma scan_digits_run (run rest : pystr) :
  digit_run run -> stops_at rest ->
  forall prev value digits,
    scan_digits prev value digits (run ++ rest) =
      Some (run_value value run, run_digits digits run, rest).
Proof.
  intros Hrun Hstop.
  induction Hrun as [d Hd | d run Hd _ IH | d run Hd _ IH];
    intros prev value digits.
  - simpl app. rewrite scan_digits_digit, run_value_cons, run_digits_cons, Hd by done.
    apply scan_digits_stop; [|done]. apply digit_not; [lia | done].
  - simpl app. rewrite scan_digits_digit, run_value_cons, run_digits_cons, Hd by done.
    apply IH.
  - simpl app. rewrite scan_digits_digit by done.
    rewrite !run_value_cons, !run_digits_cons, Hd.
    change (is_ascii_digit 95) with false. cbv iota.
    cbn [scan_digits]. rewrite N.eqb_refl.
    rewrite (digit_not d 95) by (done || lia). apply IH.
Qed.

Lemma scan_digits_sound (s : pystr) :
  forall prev value digits value' digits' rest,
    scan_digits prev value digits s = Some (value', digits', rest) ->
    exists read,
      s = read ++ rest
      ∧ value' = run_value value read
      ∧ digits' = run_digits digits read
      ∧ read_shape prev read.
Proof.
  induction s as [|c s IH]; intros prev value digits value' digits' rest.
  - simpl. destruct (prev =? 95)%N eqn:Hprev; [done|].
    intros [= <- <- <-]. exists []. repeat split. by left.
  - simpl. destruct (c =? 95)%N eqn:Hc.
    + apply N.eqb_eq in Hc as ->.
      destruct (prev =? 95)%N eqn:Hprev; [done|].
      intros (read & -> & -> & -> & Hshape)%IH.
      exists (95%N :: read). repeat split.
      right. right. split; [done|]. exists read. split; [done|].
      destruct Hshape as [[_ ?] | [? | [? _]]]; done.
    + destruct (is_ascii_digit c) eqn:Hd.
      * intros (read & -> & -> & -> & Hshape)%IH.
        exists (c :: read). split; [done|].
        rewrite run_value_cons, run_digits_cons, Hd. repeat split.
        right. left.
        destruct Hshape as [[-> _] | [? | [_ (run & -> & ?)]]].
        -- by constructor.
        -- by constructor.
        -- by constructor.
      * destruct (prev =? 95)%N eqn:Hprev; [done|].
        intros [= <- <- <-]. exists []. repeat split. by left.
Qed.

(** *** The whole of [int(str)] *)

Section IntOfStr.
Context {interp : Interpreter}.

Lemma long_from_string_unfold (s : pystr) :
  long_from_string s =
    let s1 := skip_spaces s in
    digits_and_blanks
      (if starts_with 45%N s1 then -1 else 1)
      (if starts_with 43%N s1 || starts_with 45%N s1 then drop 1 s1 else s1).
Proof. reflexivity. Qed.

Lemma digit_limit_check (digits : N) :
  ((MAX_STR_DIGITS_THRESHOLD <? digits)
   && (0 <? int_max_str_digits) && (int_max_str_digits <? digits))%N = false
  <-> within_digit_limit digits.
Proof.
  unfold within_digit_limit.
  rewrite !andb_false_iff, !N.ltb_ge. split; intros Hlim; [|lia].
  destruct Hlim as [[?|?]|?]; lia.
Qed.

Lemma digits_and_blanks_error (sign : Z) (s2 : pystr) (e : exn) :
  digits_and_blanks sign s2 = Raise e -> e = ValueError.
Proof.
  unfold digits_and_blanks. intros Hrun.
  repeat (match type of Hrun with
          | (if ?b then _ else _) = _ => destruct b
          | match ?x with _ => _ end = _ => destruct x
          end; try congruence).
Qed.

Lemma digits_and_blanks_accepts (sign : Z) (run trail : pystr) :
  digit_run run -> within_digit_limit (run_digits 0 run) -> blank trail ->
  digits_and_blanks sign (run ++ trail) = Ok (sign * run_value 0 run).
Proof.
  intros Hrun Hlim Htrail. unfold digits_and_blanks.
  destruct (digit_run_head _ Hrun) as (d & run' & Heq & Hd).
  assert (Hhead : starts_with 95%N (run ++ trail) = false).
  { rewrite Heq. simpl. apply digit_not; [lia | done]. }
  rewrite Hhead, (scan_digits_run run trail Hrun (blank_stops _ Htrail)).
  pose proof (digit_run_digits run 0 Hrun) as Hpos.
  destruct (N.eqb_spec (run_digits 0 run) 0) as [Hzero|_]; [lia|].
  apply digit_limit_check in Hlim. rewrite Hlim.
  by rewrite skip_spaces_all.
Qed.

Lemma digits_and_blanks_sound (sign : Z) (s2 : pystr) (z : Z) :
  digits_and_blanks sign s2 = Ok z ->
  exists run trail,
    s2 = run ++ trail ∧ digit_run run
    ∧ within_digit_limit (run_digits 0 run) ∧ blank trail
    ∧ z = sign * run_value 0 run.
Proof.
  unfold digits_and_blanks.
  destruct (starts_with 95%N s2) eqn:Hhead; [done|].
  destruct (scan_digits 0%N 0 0%N s2) as [[[value digits] rest]|] eqn:Hscan;
    [|done].
  destruct (N.eqb_spec digits 0) as [|Hdigits]; [done|].
  destruct (_ && _ && _)%N eqn:Hlim; [done|].
  destruct (skip_spaces rest) eqn:Hrest; [|done].
  intros [= <-].
  apply scan_digits_sound in Hscan as (read & -> & -> & -> & Hshape).
  exists read, rest. split; [done|].
  assert (Hrun : digit_run read).
  { destruct Hshape as [[-> _] | [? | [_ (run & -> & _)]]]; done. }
  split; [done|]. split; [by apply digit_limit_check|].
  split; [by apply skip_spaces_nil | done].
Qed.

Lemma long_from_string_error (s : pystr) (e : exn) :
  long_from_string s = Raise e -> e = ValueError.
Proof. rewrite long_from_string_unfold. apply digits_and_blanks_error. Qed.

Lemma long_from_string_literal (s : pystr) (z : Z) :
  long_from_string s = Ok z <-> int_literal s z.
Proof.
  rewrite long_from_string_unfold. split.
  - destruct (skip_spaces_split s) as (lead & Hlead & Heq).
    cbv zeta. destruct (skip_spaces s) as [|c s1] eqn:Hs1; [done|].
    pose proof (skip_spaces_head _ _ _ Hs1) as Hc.
    rewrite Heq. unfold starts_with.
    destruct (N.eqb_spec c 45) as [->|H45].
    + rewrite orb_true_r. change (drop 1 (45%N :: s1)) with s1.
      intros (run & trail & -> & Hrun & Hlim & Htrail & ->)%digits_and_blanks_sound.
      replace (-1 * run_value 0 run) with (- run_value 0 run) by lia.
      by constructor.
    + destruct (N.eqb_spec c 43) as [->|H43]; simpl orb; cbv iota.
      * change (drop 1 (43%N :: s1)) with s1.
        intros (run & trail & -> & Hrun & Hlim & Htrail & ->)%digits_and_blanks_sound.
        replace (1 * run_value 0 run) with (run_value 0 run) by lia.
        by constructor.
      * intros (run & trail & Hs & Hrun & Hlim & Htrail & ->)%digits_and_blanks_sound.
        rewrite Hs.
        replace (1 * run_value 0 run) with (run_value 0 run) by lia.
        by constructor.
  - intros Hlit.
    destruct Hlit as [lead run trail Hlead Hrun Hlim Htrail
                     |lead run trail Hlead Hrun Hlim Htrail
                     |lead run trail Hlead Hrun Hlim Htrail];
      cbv zeta; rewrite skip_spaces_blank by done.
    + destruct (digit_run_head _ Hrun) as (d & run' & Heq & Hd).
      rewrite Heq, <- app_comm_cons, skip_spaces_stays by by apply digit_not_space.
      rewrite app_comm_cons, <- Heq.
      assert (H45 : starts_with 45%N (run ++ trail) = false).
      { rewrite Heq. simpl. apply digit_not; [lia | done]. }
      assert (H43 : starts_with 43%N (run ++ trail) = false).
      { rewrite Heq. simpl. apply digit_not; [lia | done]. }
      rewrite H45, H43. simpl orb. cbv iota.
      rewrite digits_and_blanks_accepts by done. f_equal; lia.
    + rewrite skip_spaces_stays by done.
      change (digits_and_blanks 1 (run ++ trail) = Ok (run_value 0 run)).
      rewrite digits_and_blanks_accepts by done. f_equal; lia.
    + rewrite skip_spaces_stays by done.
      change (digits_and_blanks (-1) (run ++ trail) = Ok (- run_value 0 run)).
      rewrite digits_and_blanks_accepts by done. f_equal; lia.
Qed.

End IntOfStr.

(** *** [int(str(n))] *)

Lemma uint_digits_value_acc (d : Decimal.uint) (acc : positive) :
  run_value (Z.pos acc) (uint_digits d) = Z.pos (Pos.of_uint_acc d acc).
Proof.
  revert acc. induction d; intros acc; simpl uint_digits;
    [done | rewrite run_value_cons; decide_digit;
            cbn [Pos.of_uint_acc]; rewrite <- IHd; f_equal;
            simpl Z.of_N; lia ..].
Qed.

Lemma uint_digits_value (d : Decimal.uint) :
  run_value 0 (uint_digits d) = Z.of_N (Pos.of_uint d).
Proof.
  induction d; simpl uint_digits; [done | rewrite run_value_cons ..];
    decide_digit; cbn [Pos.of_uint];
    [exact IHd | cbn [Z.of_N]; rewrite <- uint_digits_value_acc; f_equal ..].
Qed.

Lemma uint_digits_run (d : Decimal.uint) :
  d ≠ Decimal.Nil -> digit_run (uint_digits d).
Proof.
  induction d as [|d IH|d IH|d IH|d IH|d IH|d IH|d IH|d IH|d IH|d IH];
    intros Hd; [done | ..]; clear Hd; simpl uint_digits;
    (destruct d;
     [by apply digit_run_one | apply digit_run_next; [done | by apply IH] ..]).
Qed.

Lemma uint_digits_count (d : Decimal.uint) (n : N) :
  run_digits n (uint_digits d) = (n + N.of_nat (length (uint_digits d)))%N.
Proof.
  revert n. induction d; intros n; simpl uint_digits;
    [simpl; lia | rewrite run_digits_cons; decide_digit;
                  rewrite IHd; simpl length; lia ..].
Qed.

Lemma uint_digits_ascii (d : Decimal.uint) :
  forallb (fun c => (c <? 128)%N) (uint_digits d) = true.
Proof. induction d; simpl; done. Qed.

Lemma int_repr_literal {interp : Interpreter} (n : Z) :
  (length (int_repr n) <= 640)%nat -> int_literal (int_repr n) n.
Proof.
  unfold int_repr. intros Hlen.
  assert (Hlim : forall d, (length (uint_digits d) <= 640)%nat ->
                           within_digit_limit (run_digits 0 (uint_digits d))).
  { intros d Hd. left. rewrite uint_digits_count.
    unfold MAX_STR_DIGITS_THRESHOLD. lia. }
  destruct n as [|p|p]; simpl Z.to_int in *.
  - apply (int_literal_unsigned [] [48%N] []); by constructor.
  - pose proof (int_literal_unsigned [] (uint_digits (Pos.to_uint p)) []) as Hlit.
    rewrite app_nil_r, uint_digits_value, DecimalPos.Unsigned.of_to in Hlit.
    apply Hlit; [constructor | | by apply Hlim | constructor].
    apply uint_digits_run, DecimalPos.Unsigned.to_uint_nonnil.
  - pose proof (int_literal_minus [] (uint_digits (Pos.to_uint p)) []) as Hlit.
    rewrite app_nil_r, uint_digits_value, DecimalPos.Unsigned.of_to in Hlit.
    simpl length in Hlen.
    apply Hlit; [constructor | | apply Hlim; lia | constructor].
    apply uint_digits_run, DecimalPos.Unsigned.to_uint_nonnil.
Qed.

Lemma int_repr_ascii (n : Z) :
  forallb (fun c => (c <? 128)%N) (int_repr n) = true.
Proof.
  unfold int_repr. destruct (Z.to_int n); simpl; apply uint_digits_ascii.
Qed.

(** Reading back the text that [str()] gives for an integer. *)
Lemma py_int_int_repr {interp : Interpreter} (n : Z) :
  (length (int_repr n) <= 640)%nat -> py_int (PyStr (int_repr n)) = Ok n.
Proof.
  intros Hlen. unfold py_int, to_ascii_decimal. rewrite int_repr_ascii.
  by apply long_from_string_literal, int_repr_literal.
Qed.

(** [int()] reads an ASCII string of at most 640 characters in the same way
    under every interpreter. *)
Lemma py_int_same_under_every_interpreter (i1 i2 : Interpreter) (s : pystr) :
  forallb (fun c => (c <? 128)%N) s = true ->
  (length s <= 640)%nat ->
  py_int (interp := i1) (PyStr s) = py_int (interp := i2) (PyStr s).
Proof.
  intros Hascii Hlen. unfold py_int, to_ascii_decimal. rewrite Hascii.
  rewrite !long_from_string_unfold. cbv zeta.
  destruct (skip_spaces_split s) as (lead & _ & Hs).
  set (s1 := skip_spaces s) in *.
  set (sign := if starts_with 45%N s1 then -1 else 1).
  set (s2 := if starts_with 43%N s1 || starts_with 45%N s1
             then drop 1 s1 else s1).
  assert (Hs2 : (length s2 <= 640)%nat).
  { apply (f_equal length) in Hs. rewrite length_app in Hs.
    subst s2. destruct (_ || _); [rewrite length_drop|]; lia. }
  unfold digits_and_blanks.
  destruct (starts_with 95%N s2); [done|].
  destruct (scan_digits 0%N 0 0%N s2) as [[[value digits] rest]|] eqn:Hscan;
    [|done].
  apply scan_digits_sound in Hscan as (read & Heq & _ & -> & _).
  pose proof (run_digits_length read 0) as Hread.
  assert ((MAX_STR_DIGITS_THRESHOLD <? run_digits 0 read)%N = false) as Hlim.
  { apply N.ltb_ge. unfold MAX_STR_DIGITS_THRESHOLD.
    rewrite Heq, length_app in Hs2. lia. }
  by rewrite Hlim.
Qed.

(** X16. A quantity cell that holds an integer is bucketed like its text:
    the integer 1 gives stock 0, any other integer gives itself, negative
    ones included. *)
Lemma classify_stock_int_cell {interp : Interpreter} (n : Z) :
  classify_stock (int_cell n) = if decide (n = 1) then Ok 0 else Ok n.
Proof.
  unfold classify_stock, int_cell. simpl py_str. simpl py_int.
  case_decide as Hgt.
  - assert (Hlen : (length (int_repr n) <= 640)%nat) by (rewrite Hgt; vm_compute; lia).
    pose proof (py_int_int_repr n Hlen) as Hback.
    rewrite Hgt in Hback. by vm_compute in Hback.
  - case_decide as Hone.
    + assert (Hlen : (length (int_repr n) <= 640)%nat) by (rewrite Hone; vm_compute; lia).
      pose proof (py_int_int_repr n Hlen) as Hback.
      rewrite Hone in Hback. vm_compute in Hback. injection Hback as <-.
      by rewrite decide_True.
    + case_decide as Hn; [|done]. subst n. by vm_compute in Hone.
Qed.

(** ** The bucketing of quantities *)

Lemma transform_keeps_no_minus {interp : Interpreter} (s : pystr) :
  45%N ∈ transform_decimal_and_space s -> 45%N ∈ s.
Proof.
  induction s as [|ch s IH]; [done|]. simpl.
  destruct (ch <? 127)%N.
  - intros [->|Hin]%elem_of_cons; [left | right; by apply IH].
  - destruct (Py_UNICODE_ISSPACE ch).
    + intros [?|Hin]%elem_of_cons; [done | right; by apply IH].
    + destruct (Py_UNICODE_TODECIMAL ch) as [d|].
      * intros [Heq|Hin]%elem_of_cons; [lia | right; by apply IH].
      * intros [?|?%elem_of_nil]%elem_of_cons; done.
Qed.

Lemma to_ascii_decimal_no_minus {interp : Interpreter} (s : pystr) :
  45%N ∈ to_ascii_decimal s -> 45%N ∈ s.
Proof.
  unfold to_ascii_decimal. destruct (forallb _ s); [done|].
  apply transform_keeps_no_minus.
Qed.

Lemma int_literal_sign {interp : Interpreter} (s : pystr) (z : Z) :
  int_literal s z -> z < 0 -> 45%N ∈ s.
Proof.
  destruct 1 as [lead run trail _ _ _ _|lead run trail _ _ _ _|lead run trail _ _ _ _].
  - pose proof (run_value_nonneg run 0). lia.
  - pose proof (run_value_nonneg run 0). lia.
  - intros _. apply elem_of_app. right. left.
Qed.

Lemma classify_stock_cases {interp : Interpreter} (quantity_ : pyobj) :
  classify_stock quantity_ =
    if decide (py_str quantity_ = py ">10") then Ok 100
    else if decide (py_str quantity_ = py "1") then Ok 0
    else py_int quantity_.
Proof. reflexivity. Qed.

(** C5. The bucketing of a quantity string: ">10" gives 100, "1" gives 0,
    and every other string is read by [int()]: it gives [z] exactly when it
    is the text of the integer [z] (blanks, an optional sign, digits), so
    "7" gives 7 and the text of any integer other than 1 gives that
    integer, and it fails with [ValueError] when it is no such text. *)
Theorem classify_stock_policy {interp : Interpreter} :
  classify_stock (PyStr (py ">10")) = Ok 100
  ∧ classify_stock (PyStr (py "1")) = Ok 0
  ∧ classify_stock (PyStr (py "7")) = Ok 7
  ∧ (forall s : pystr,
        classify_stock (PyStr s) =
          if decide (s = py ">10") then Ok 100
          else if decide (s = py "1") then Ok 0
          else py_int (PyStr s))
  ∧ (forall (s : pystr) (z : Z),
        py_int (PyStr s) = Ok z <-> int_literal (to_ascii_decimal s) z)
  ∧ (forall s : pystr,
        (forall z, ~ int_literal (to_ascii_decimal s) z) ->
        py_int (PyStr s) = Raise ValueError)
  ∧ (forall n : Z,
        n ≠ 1 -> (length (int_repr n) <= 640)%nat ->
        classify_stock (PyStr (int_repr n)) = Ok n).
Proof.
  split; [by vm_compute|]. split; [by vm_compute|]. split; [by vm_compute|].
  split; [intros s; apply classify_stock_cases|].
  split; [intros s z; apply long_from_string_literal|].
  split.
  - intros s Hno. simpl.
    destruct (long_from_string (to_ascii_decimal s)) as [z|e] eqn:Hrun.
    + by apply long_from_string_literal, Hno in Hrun.
    + by apply long_from_string_error in Hrun as ->.
  - intros n Hn Hlen. rewrite classify_stock_cases.
    pose proof (py_int_int_repr n Hlen) as Hback. simpl py_str.
    case_decide as Hgt.
    + rewrite Hgt in Hback. by vm_compute in Hback.
    + case_decide as Hone; [|done].
      rewrite Hone in Hback. vm_compute in Hback. congruence.
Qed.

(** C5 on the text of 3. *)
Lemma classify_stock_policy_witness :
  3 ≠ 1 ∧ (length (int_repr 3) <= 640)%nat
  ∧ classify_stock (interp := plain_interpreter) (PyStr (int_repr 3)) = Ok 3.
Proof.
  assert (Hne : 3 ≠ 1) by lia.
  assert (Hlen : (length (int_repr 3) <= 640)%nat) by (vm_compute; lia).
  split; [exact Hne|]. split; [exact Hlen|].
  exact (proj2 (proj2 (proj2 (proj2 (proj2 (proj2
    (classify_stock_policy (interp := plain_interpreter)))))))
    3 Hne Hlen).
Defined.

Lemma stocks_loop_Forall {interp : Interpreter} (P : Z -> Prop)
    (rows : list dict) :
  (forall watch z,
      watch ∈ rows -> classify_stock (quantity watch) = Ok z -> P z) ->
  forall stocks ids stocks' ids',
    Forall (fun update => P (Stock.stock update)) stocks ->
    for_each rows stocks stocks_step ids = (Ok stocks', ids') ->
    Forall (fun update => P (Stock.stock update)) stocks'.
Proof.
  induction rows as [|watch rows IH]; intros Hrows stocks ids stocks' ids' Hall.
  - by intros [= <- <-].
  - rewrite for_each_cons, stocks_step_run.
    assert (Hrest : forall watch' z, watch' ∈ rows ->
               classify_stock (quantity watch') = Ok z -> P z).
    { intros watch' z Hin. apply Hrows. by right. }
    case_bool_decide; [|by apply IH].
    destruct (classify_stock (quantity watch)) as [stock|e] eqn:Hcls; [|done].
    destruct (remove_first (code watch) ids) as [ids1|]; [|done].
    apply IH; [done|]. apply Forall_app. split; [done|].
    constructor; [|done]. simpl. apply (Hrows watch); [left | done].
Qed.

(** C7 (amended). A quantity string that holds no minus sign never gives a
    negative stock: whenever its bucketing succeeds the stock is at least
    0; and when no supplier row has a minus sign in its quantity string,
    every update that [create_stocks] returns carries a stock of at least
    0. *)
Theorem classify_stock_nonnegative_without_minus {interp : Interpreter} :
  (forall (s : pystr) (z : Z),
      45%N ∉ s -> classify_stock (PyStr s) = Ok z -> 0 <= z)
  ∧ (forall (rows : list dict) (ids : list pystr)
            (stocks : list Stock.t) (ids' : list pystr),
        (forall watch, watch ∈ rows ->
                       exists s, quantity watch = PyStr s ∧ 45%N ∉ s) ->
        create_stocks rows ids = (Ok stocks, ids') ->
        Forall (fun update => 0 <= Stock.stock update) stocks).
Proof.
  assert (Hcls : forall (s : pystr) (z : Z),
             45%N ∉ s -> classify_stock (PyStr s) = Ok z -> 0 <= z).
  { intros s z Hs. rewrite classify_stock_cases. simpl py_str.
    case_decide; [intros [= <-]; lia|].
    case_decide; [intros [= <-]; lia|].
    intros Hlit%long_from_string_literal.
    destruct (Z.lt_ge_cases z 0) as [Hneg|]; [|done].
    exfalso. apply Hs, to_ascii_decimal_no_minus.
    by apply (int_literal_sign _ z). }
  split; [exact Hcls|].
  intros rows ids stocks ids' Hrows. rewrite create_stocks_unfold.
  destruct (for_each rows [] stocks_step ids) as [[stocks0|e] ids0] eqn:Hloop;
    [|done].
  intros [= <- <-]. apply Forall_app. split.
  - eapply (stocks_loop_Forall (fun z => 0 <= z)); [|constructor|exact Hloop].
    intros watch z Hin. destruct (Hrows watch Hin) as (s & -> & Hs).
    by apply Hcls.
  - apply Forall_fmap, Forall_forall. intros id _. simpl. lia.
Qed.

(** C7 (amended) on the quantity "7". *)
Lemma classify_stock_nonnegative_without_minus_witness :
  (45%N ∉ py "7")
  ∧ classify_stock (interp := plain_interpreter) (PyStr (py "7")) = Ok 7
  ∧ 0 <= 7.
Proof.
  assert (Hs : 45%N ∉ py "7")
    by (apply (bool_decide_unpack _); vm_compute; exact I).
  assert (Hrun : classify_stock (interp := plain_interpreter) (PyStr (py "7"))
                 = Ok 7) by (vm_compute; reflexivity).
  split; [exact Hs|]. split; [exact Hrun|].
  exact (proj1 (classify_stock_nonnegative_without_minus
                  (interp := plain_interpreter)) _ _ Hs Hrun).
Defined.

(** C7, as stated, fails: the quantity string "-5" is read at face value,
    and [create_stocks] returns an update with stock -5. *)
Lemma classify_stock_negative :
  classify_stock (interp := plain_interpreter) (PyStr (py "-5")) = Ok (-5)
  ∧ create_stocks (interp := plain_interpreter)
      [text_row "A" "-5" "100.00"] [py "A"]
    = (Ok [Stock.mk (py "A") (-5)], [])
  ∧ -5 < 0.
Proof. split; [by vm_compute|]. split; [by vm_compute | lia]. Qed.

(** ** Orchestration: failures *)

Section Orderly.
Context {interp : Interpreter}.
Variable w : world.

Lemma all_succeeded_snoc (tr : list event) (ev : event) :
  all_succeeded w tr -> failure_of w tr ev = None ->
  all_succeeded w (tr ++ [ev]).
Proof.
  intros Htr Hev i ev' Hi.
  destruct (decide (i < length tr)%nat) as [Hlt|Hge].
  - rewrite lookup_app_l in Hi by done.
    rewrite take_app_le by lia. by apply Htr.
  - apply lookup_lt_Some in Hi as Hlen. rewrite length_app in Hlen. simpl in Hlen.
    assert (i = length tr) as -> by lia.
    rewrite list_lookup_middle in Hi by done. injection Hi as <-.
    by rewrite take_app_length.
Qed.

Lemma all_succeeded_nil : all_succeeded w [].
Proof. intros i ev Hi. by rewrite lookup_nil in Hi. Qed.

Lemma orderly_ret {A} (a : A) : orderly w (mret a).
Proof. by intros s Hs. Qed.

Lemma orderly_lift {A} (r : result A) : orderly w (lift r).
Proof. intros s Hs. unfold lift. destruct r; [done | by left]. Qed.

Lemma orderly_on_offer_ids {A} (m : ST (list pystr) A) :
  orderly w (on_offer_ids m).
Proof.
  intros s Hs. unfold on_offer_ids.
  destruct (m (offer_ids_obj s)) as [[a|e] ids]; [done | by left].
Qed.

Lemma orderly_bind {A B} (m : IO A) (k : A -> IO B) :
  orderly w m -> (forall a, orderly w (k a)) -> orderly w (m ≫= k).
Proof.
  intros Hm Hk s Hs. rewrite bind_run. specialize (Hm s Hs).
  destruct (m s) as [[a|e] s']; [by apply Hk | done].
Qed.

Lemma orderly_call {A} (ev : event) (outcome : list event -> result A) :
  (forall history, failure_of w history ev = error_of (outcome history)) ->
  orderly w (call ev outcome).
Proof.
  intros Hev s Hs. unfold call. specialize (Hev (trace s)).
  destruct (outcome (trace s)) as [a|e]; simpl in *.
  - by apply all_succeeded_snoc.
  - right. by exists (trace s), ev.
Qed.

Lemma orderly_for_each {A B} (l : list A) (acc : B) (body : B -> A -> IO B) :
  (forall acc x, orderly w (body acc x)) -> orderly w (for_each l acc body).
Proof.
  intros Hbody. revert acc. induction l as [|x l IH]; intros acc.
  - apply orderly_ret.
  - apply orderly_bind; [apply Hbody | intros acc'; apply IH].
Qed.

Lemma orderly_submit_stocks (stocks : list Stock.t) (size : Z) :
  orderly w (submit_stocks w stocks size).
Proof.
  apply orderly_bind; [apply orderly_lift|]. intros batches.
  apply orderly_for_each. intros _ batch. by apply orderly_call.
Qed.

Lemma orderly_submit_prices (prices : list Price.t) (size : Z) :
  orderly w (submit_prices w prices size).
Proof.
  apply orderly_bind; [apply orderly_lift|]. intros batches.
  apply orderly_for_each. intros _ batch. by apply orderly_call.
Qed.

Lemma orderly_main_try : orderly w (main_try w).
Proof.
  apply orderly_bind; [by apply orderly_call|]. intros ids.
  apply orderly_bind; [apply orderly_on_offer_ids|]. intros _.
  apply orderly_bind; [by apply orderly_call|]. intros rows.
  apply orderly_bind; [apply orderly_on_offer_ids|]. intros stocks.
  apply orderly_bind; [apply orderly_submit_stocks|]. intros _.
  apply orderly_bind; [apply orderly_on_offer_ids|]. intros prices.
  apply orderly_submit_prices.
Qed.

Lemma main_run :
  env_str w = Ok () ->
  run (main w) =
    match run (main_try w) with
    | (Ok _, st) => (Ok (), st)
    | (Raise e, st) =>
        (Ok (),
         {| offer_ids_obj := offer_ids_obj st; trace := trace st ++ [report e] |})
    end.
Proof.
  intros Henv. unfold run, main. rewrite bind_run, Henv. unfold lift, try_except.
  destruct (main_try w _) as [[[]|e] st]; [done|].
  unfold report. by repeat destruct (isinstance _ _).
Qed.

End Orderly.

Lemma main_try_validation_failure {interp : Interpreter} (w : world)
    (ids : list pystr) (rows : list dict) (e : exn) (ids' : list pystr) :
  get_offer_ids w [] = Ok ids ->
  download_stock w [Ev_get_offer_ids] = Ok rows ->
  create_stocks rows ids = (Raise e, ids') ->
  run (main_try w) =
    (Raise e,
     {| offer_ids_obj := ids'; trace := [Ev_get_offer_ids; Ev_download_stock] |}).
Proof.
  intros Hids Hrows Hstocks. unfold run, main_try.
  rewrite bind_run. unfold call at 1. simpl trace. rewrite Hids.
  rewrite bind_run. unfold on_offer_ids at 1, put. simpl.
  rewrite bind_run. unfold call at 1. simpl trace. rewrite Hrows.
  rewrite bind_run. unfold on_offer_ids at 1. simpl. by rewrite Hstocks.
Qed.

(** C9 (amended). Once the credentials are read, [main] never raises.  When
    a step fails, the run is over: every call before the failure returned,
    the failing call is the last one (it is not tried again) and the only
    thing that follows is one printed diagnostic; a quantity that cannot be
    read stops the run before anything is submitted.  The diagnostic is
    chosen by the class of the exception: a read timeout, a connection
    error (a connect timeout is one) and everything else have three
    different texts; a validation failure and an unexpected failure both
    fall under everything else and get the text "ERROR_2". *)
Theorem main_stops_and_reports {interp : Interpreter} (w : world) :
  env_str w = Ok () ->
  (exists st,
      run (main w) = (Ok (), st)
      ∧ ((run (main_try w) = (Ok (), st) ∧ all_succeeded w (trace st))
         ∨ exists e st0,
             run (main_try w) = (Raise e, st0)
             ∧ trace st = trace st0 ++ [report e]
             ∧ (all_succeeded w (trace st0)
                ∨ stopped_at_failure w (trace st0) e)))
  ∧ (forall ids rows e ids',
        get_offer_ids w [] = Ok ids ->
        download_stock w [Ev_get_offer_ids] = Ok rows ->
        create_stocks rows ids = (Raise e, ids') ->
        trace (run (main w)).2 =
          [Ev_get_offer_ids; Ev_download_stock; report e])
  ∧ (forall e,
        diagnostic (report e) =
          Some (if decide (e = ReadTimeout)
                then py "Превышено время ожидания..."
                else if decide (e = ConnectionError ∨ e = ConnectTimeout)
                     then py "Ошибка соединения"
                     else py "ERROR_2"))
  ∧ py "Превышено время ожидания..." ≠ py "Ошибка соединения"
  ∧ py "Превышено время ожидания..." ≠ py "ERROR_2"
  ∧ py "Ошибка соединения" ≠ py "ERROR_2".
Proof.
  intros Henv. split; [|split; [|split]].
  - rewrite (main_run w Henv).
    pose proof (orderly_main_try w {| offer_ids_obj := []; trace := [] |}) as Hord.
    fold (run (main_try w)) in Hord.
    destruct (run (main_try w)) as [[[]|e] st0].
    + eexists. split; [done|]. left. split; [done|].
      apply Hord, all_succeeded_nil.
    + eexists. split; [done|]. right. exists e, st0.
      split; [done|]. split; [done|].
      apply Hord, all_succeeded_nil.
  - intros ids rows e ids' Hids Hrows Hstocks.
    rewrite (main_run w Henv).
    by rewrite (main_try_validation_failure w _ _ _ _ Hids Hrows Hstocks).
  - intros e. destruct e; vm_compute; reflexivity.
  - repeat split; intros Heq; by vm_compute in Heq.
Qed.

(** C9 (amended) on a run whose first submission times out. *)
Lemma main_stops_and_reports_witness :
  env_str timeout_world = Ok ()
  ∧ exists st,
      run (main (interp := plain_interpreter) timeout_world) = (Ok (), st)
      ∧ ((run (main_try (interp := plain_interpreter) timeout_world)
          = (Ok (), st)
          ∧ all_succeeded timeout_world (trace st))
         ∨ exists e st0,
             run (main_try (interp := plain_interpreter) timeout_world)
             = (Raise e, st0)
             ∧ trace st = trace st0 ++ [report e]
             ∧ (all_succeeded timeout_world (trace st0)
                ∨ stopped_at_failure timeout_world (trace st0) e)).
Proof.
  split; [reflexivity|].
  exact (proj1 (main_stops_and_reports (interp := plain_interpreter)
                  timeout_world eq_refl)).
Defined.

(** C9, as stated, fails: a validation failure (the quantity "abc") and an
    unexpected failure (an HTTP error status) end with the same diagnostic
    text; and a failure to read the credentials, which happens before the
    [try], ends the run with nothing printed. *)
Lemma validation_and_unexpected_failure_share_diagnostic :
  trace (run (main (interp := plain_interpreter) validation_failure_world)).2
  = [Ev_get_offer_ids; Ev_download_stock;
     Ev_print (Some ValueError) (py "ERROR_2")]
  ∧ trace (run (main (interp := plain_interpreter) unexpected_failure_world)).2
    = [Ev_get_offer_ids; Ev_print (Some HTTPError) (py "ERROR_2")]
  ∧ diagnostic (report ValueError) = diagnostic (report HTTPError)
  ∧ run (main (interp := plain_interpreter) missing_credentials_world)
    = (Raise ValueError, {| offer_ids_obj := []; trace := [] |}).
Proof. split; [by vm_compute|]. split; [by vm_compute|]. split; by vm_compute. Qed.

(** ** Orchestration: the end-to-end run *)

(** C3. On the end-to-end example [main] submits the stock batch with
    stock 100 for "X" and then no price batch at all: [create_stocks] has
    taken "X" out of the list that [create_prices] is given.  On a list that
    still holds "X", as [upload_prices] fetches it, [create_prices] returns
    the entry for "X" with price "1234" and that batch is submitted. *)
Theorem main_end_to_end_submits_no_price {interp : Interpreter} :
  run (main end_to_end_world) =
    (Ok (),
     {| offer_ids_obj := [];
        trace := [Ev_get_offer_ids; Ev_download_stock;
                  Ev_update_stocks [Stock.mk (py "X") 100]] |})
  ∧ create_prices [end_to_end_row] [py "X"] =
      (Ok [price_entry (py "X") (py "1234")], [py "X"])
  ∧ run (upload_prices end_to_end_world [end_to_end_row]) =
      (Ok [price_entry (py "X") (py "1234")],
       {| offer_ids_obj := [py "X"];
          trace := [Ev_get_offer_ids;
                    Ev_update_price [price_entry (py "X") (py "1234")]] |}).
Proof. split; [by vm_compute|]. split; by vm_compute. Qed.

(** *** [main] never submits a price *)

Lemma stock_batches_events (w : world) (batches : list (list Stock.t)) :
  forall s,
    exists r evs,
      for_each batches () (fun _ some_stock =>
        call (Ev_update_stocks some_stock)
             (fun history => update_stocks w history some_stock)) s
      = (r, {| offer_ids_obj := offer_ids_obj s; trace := trace s ++ evs |})
      ∧ Forall (fun ev => ~ is_price_submission ev) evs.
Proof.
  induction batches as [|batch batches IH]; intros s.
  - exists (Ok ()), []. rewrite app_nil_r.
    split; [by destruct s | constructor].
  - rewrite for_each_cons. unfold call at 1.
    destruct (update_stocks w (trace s) batch) as [[]|e].
    + destruct (IH {| offer_ids_obj := offer_ids_obj s;
                      trace := trace s ++ [Ev_update_stocks batch] |})
        as (r & evs & -> & Hevs).
      exists r, (Ev_update_stocks batch :: evs). simpl.
      rewrite <- app_assoc. split; [done|]. constructor; [by intros []|done].
    + exists (Raise e), [Ev_update_stocks batch]. split; [done|].
      constructor; [by intros []|done].
Qed.

Lemma submit_stocks_events {interp : Interpreter} (w : world)
    (stocks : list Stock.t) (size : Z) (s : run_state) :
  exists r evs,
    submit_stocks w stocks size s
    = (r, {| offer_ids_obj := offer_ids_obj s; trace := trace s ++ evs |})
    ∧ Forall (fun ev => ~ is_price_submission ev) evs.
Proof.
  unfold submit_stocks. rewrite bind_run. unfold lift.
  destruct (divide stocks size) as [batches|e].
  - apply stock_batches_events.
  - exists (Raise e), []. rewrite app_nil_r.
    split; [by destruct s | constructor].
Qed.

Lemma report_is_no_submission (e : exn) : ~ is_price_submission (report e).
Proof. unfold report. repeat destruct (isinstance _ _); by intros []. Qed.

(** With a duplicate-free catalogue, no run of [main] ever submits a price
    batch. *)
Lemma main_never_submits_prices {interp : Interpreter} (w : world)
    (ids : list pystr) :
  env_str w = Ok () ->
  get_offer_ids w [] = Ok ids ->
  NoDup ids ->
  Forall (fun ev => ~ is_price_submission ev) (trace (run (main w)).2).
Proof.
  intros Henv Hids Hnd. rewrite (main_run w Henv).
  unfold run, main_try.
  rewrite bind_run. unfold call at 1. simpl trace. rewrite Hids.
  rewrite bind_run. unfold on_offer_ids at 1, put. simpl.
  rewrite bind_run. unfold call at 1. simpl trace.
  destruct (download_stock w [Ev_get_offer_ids]) as [rows|e]; simpl.
  2: { repeat constructor; try by intros [].
       apply report_is_no_submission. }
  rewrite bind_run. unfold on_offer_ids at 1. simpl.
  destruct (create_stocks rows ids) as [[stocks|e] ids'] eqn:Hstocks; simpl.
  2: { repeat constructor; try by intros [].
       apply report_is_no_submission. }
  rewrite bind_run.
  destruct (submit_stocks_events w stocks 100
              {| offer_ids_obj := ids';
                 trace := [Ev_get_offer_ids; Ev_download_stock] |})
    as (r & evs & -> & Hevs).
  simpl offer_ids_obj. simpl trace.
  destruct r as [[]|e]; simpl.
  2: { repeat constructor; try by intros [].
       apply Forall_app. split; [done|].
       constructor; [apply report_is_no_submission | done]. }
  rewrite bind_run. unfold on_offer_ids at 1. simpl.
  rewrite (create_prices_on_residual _ _ _ _ Hnd Hstocks).
  simpl. repeat constructor; try by intros []. done.
Qed.

(** C10. After [create_stocks] has returned on a duplicate-free list of
    offer ids, [create_prices] on the same rows and the same, now shorter,
    list returns the empty list: every id that a row mentions is gone.  So
    [main], which hands the one list to both, submits no price batch in any
    run whose catalogue is duplicate-free. *)
Theorem create_prices_after_create_stocks_is_empty {interp : Interpreter} :
  (forall (rows : list dict) (ids : list pystr)
          (stocks : list Stock.t) (ids' : list pystr),
      NoDup ids ->
      create_stocks rows ids = (Ok stocks, ids') ->
      create_prices rows ids' = (Ok [], ids'))
  ∧ (forall (w : world) (ids : list pystr),
        env_str w = Ok () ->
        get_offer_ids w [] = Ok ids ->
        NoDup ids ->
        Forall (fun ev => ~ is_price_submission ev) (trace (run (main w)).2)).
Proof.
  split.
  - apply @create_prices_on_residual.
  - apply @main_never_submits_prices.
Qed.

(** C10 on the sample rows. *)
Lemma create_prices_after_create_stocks_is_empty_witness :
  NoDup sample_ids
  ∧ create_stocks (interp := plain_interpreter) sample_rows sample_ids =
      (Ok [Stock.mk (py "A") 5; Stock.mk (py "B") 0; Stock.mk (py "C") 0],
       [py "B"; py "C"])
  ∧ create_prices sample_rows [py "B"; py "C"] = (Ok [], [py "B"; py "C"]).
Proof.
  assert (Hnd : NoDup sample_ids) by (apply (bool_decide_unpack _); vm_compute; exact I).
  assert (Hrun : create_stocks (interp := plain_interpreter) sample_rows sample_ids =
      (Ok [Stock.mk (py "A") 5; Stock.mk (py "B") 0; Stock.mk (py "C") 0],
       [py "B"; py "C"])) by (vm_compute; reflexivity).
  split; [exact Hnd|]. split; [exact Hrun|].
  exact (proj1 (create_prices_after_create_stocks_is_empty
                  (interp := plain_interpreter)) _ _ _ _ Hnd Hrun).
Defined.

(** * Further properties of the reconciliation *)

(** ** [create_stocks] on any list of offer ids *)

Lemma stocks_loop_permutation {interp : Interpreter} (rows : list dict) :
  forall stocks ids stocks' ids',
    for_each rows stocks stocks_step ids = (Ok stocks', ids') ->
    exists matched,
      stocks' = stocks ++ matched
      ∧ (Stock.offer_id <$> matched) ++ ids' ≡ₚ ids
      ∧ ids' `sublist_of` ids.
Proof.
  induction rows as [|watch rows IH]; intros stocks ids stocks' ids'.
  - intros [= <- <-]. exists []. by rewrite app_nil_r.
  - rewrite for_each_cons, stocks_step_run. case_bool_decide as Hin.
    + destruct (classify_stock (quantity watch)) as [stock|e]; [|done].
      destruct (remove_first_elem_of _ _ Hin) as (ids1 & Hrm & Hperm).
      rewrite Hrm. intros (matched & -> & Hp & Hsub)%IH.
      exists (Stock.mk (code watch) stock :: matched).
      split; [by rewrite <- app_assoc|]. split.
      * simpl. by rewrite Hp, Hperm.
      * etrans; [exact Hsub|]. clear -Hrm.
        revert ids1 Hrm. induction ids as [|y ids IHids]; intros ids1; [done|].
        simpl. case_decide; [intros [= <-]; by apply sublist_cons|].
        destruct (remove_first (code watch) ids) as [l0|]; [|done].
        intros [= <-]. apply sublist_skip. by apply IHids.
    + apply IH.
Qed.

(** X1. Whatever the list of offer ids, duplicates included, the offer ids of
    the updates that [create_stocks] returns are a rearrangement of the list
    it was given: one update per entry of the list, so as many updates as
    entries; what is left in the list keeps its order, and the updates end
    with a stock of 0 for each entry left. *)
Theorem create_stocks_one_update_per_list_entry {interp : Interpreter}
    (rows : list dict) (ids : list pystr)
    (stocks : list Stock.t) (ids' : list pystr) :
  create_stocks rows ids = (Ok stocks, ids') ->
  Stock.offer_id <$> stocks ≡ₚ ids
  ∧ length stocks = length ids
  ∧ ids' `sublist_of` ids
  ∧ drop (length stocks - length ids') stocks = zero_stock <$> ids'.
Proof.
  rewrite create_stocks_unfold.
  destruct (for_each rows [] stocks_step ids) as [[stocks0|e] ids0] eqn:Hloop;
    [|done].
  intros [= <- <-].
  destruct (stocks_loop_permutation _ _ _ _ _ Hloop) as (matched & Heq & Hp & Hsub).
  simpl in Heq. subst stocks0.
  assert (Hids : Stock.offer_id <$> matched ++ (zero_stock <$> ids0) ≡ₚ ids).
  { by rewrite fmap_app, offer_id_zero_stock. }
  split; [done|]. split; [|split; [done|]].
  - rewrite <- (length_fmap Stock.offer_id), Hids. done.
  - rewrite length_app, length_fmap.
    replace (length matched + length ids0 - length ids0)%nat
      with (length matched) by lia.
    by rewrite drop_app_length.
Qed.

(** X1 on a catalogue that lists "A" twice: "A" gets two updates. *)
Lemma create_stocks_one_update_per_list_entry_witness :
  create_stocks (interp := plain_interpreter)
    [text_row "A" "5" "100.00"] [py "A"; py "A"]
  = (Ok [Stock.mk (py "A") 5; Stock.mk (py "A") 0], [py "A"])
  ∧ length [Stock.mk (py "A") 5; Stock.mk (py "A") 0]
    = length [py "A"; py "A"].
Proof.
  assert (Hrun : create_stocks (interp := plain_interpreter)
    [text_row "A" "5" "100.00"] [py "A"; py "A"]
  = (Ok [Stock.mk (py "A") 5; Stock.mk (py "A") 0], [py "A"]))
    by (vm_compute; reflexivity).
  split; [exact Hrun|].
  exact (proj1 (proj2 (create_stocks_one_update_per_list_entry _ _ _ _ Hrun))).
Defined.

(** ** Rows that the catalogue does not know *)

Lemma remove_first_subseteq (x : pystr) (l l' : list pystr) :
  remove_first x l = Some l' -> l' ⊆ l.
Proof.
  revert l'. induction l as [|y l IH]; intros l'; [done|]. simpl.
  case_decide; [intros [= <-] z Hz; by right|].
  destruct (remove_first x l) as [l0|]; [|done].
  intros [= <-] z [->|Hz]%elem_of_cons; [left | right; by apply (IH l0)].
Qed.

Lemma stocks_loop_known_rows {interp : Interpreter}
    (ids : list pystr) (rows : list dict) :
  forall stocks ids0,
    ids0 ⊆ ids ->
    for_each rows stocks stocks_step ids0 =
    for_each (filter (fun watch => code watch ∈ ids) rows) stocks stocks_step ids0.
Proof.
  induction rows as [|watch rows IH]; intros stocks ids0 Hsub; [done|].
  rewrite filter_cons. case_decide as Hin.
  - rewrite !for_each_cons, stocks_step_run.
    case_bool_decide; [|by apply IH].
    destruct (classify_stock (quantity watch)); [|done].
    destruct (remove_first (code watch) ids0) as [ids1|] eqn:Hrm; [|done].
    apply IH. apply remove_first_subseteq in Hrm.
    intros z Hz. by apply Hsub, Hrm.
  - rewrite for_each_cons, stocks_step_run.
    rewrite bool_decide_eq_false_2 by (intros Hin0; by apply Hin, Hsub).
    by apply IH.
Qed.

(** X2. [create_stocks] never looks at the quantity of a row whose code is
    not in the list of offer ids: the result and the list left are those of
    the call on the rows whose code the list holds, whatever the other rows
    carry. *)
Theorem create_stocks_ignores_unknown_rows {interp : Interpreter}
    (rows : list dict) (ids : list pystr) :
  create_stocks rows ids =
  create_stocks (filter (fun watch => code watch ∈ ids) rows) ids.
Proof.
  rewrite !create_stocks_unfold. by rewrite (stocks_loop_known_rows ids rows).
Qed.

Lemma prices_loop_known_rows (ids : list pystr) (rows : list dict) :
  forall prices,
    for_each rows prices prices_step ids =
    for_each (filter (fun watch => code watch ∈ ids) rows) prices prices_step ids.
Proof.
  induction rows as [|watch rows IH]; intros prices; [done|].
  rewrite filter_cons. case_decide as Hin.
  - rewrite !for_each_cons, prices_step_run.
    case_bool_decide; [|done].
    destruct (price_conversion (price_cell watch)); [apply IH | done].
  - rewrite for_each_cons, prices_step_run.
    rewrite bool_decide_eq_false_2 by done. apply IH.
Qed.

(** X3. [create_prices] never converts the price of a row whose code is not
    in the list of offer ids: a malformed price in such a row does no harm,
    the result is that of the call on the rows the list knows. *)
Theorem create_prices_ignores_unknown_rows
    (rows : list dict) (ids : list pystr) :
  create_prices rows ids =
  create_prices (filter (fun watch => code watch ∈ ids) rows) ids.
Proof. rewrite !create_prices_unfold. apply prices_loop_known_rows. Qed.

(** ** [create_prices] piece by piece *)

Lemma for_each_app {S A B} (l1 l2 : list A) (acc : B)
    (body : B -> A -> ST S B) (s : S) :
  for_each (l1 ++ l2) acc body s =
    match for_each l1 acc body s with
    | (Ok acc', s') => for_each l2 acc' body s'
    | (Raise e, s') => (Raise e, s')
    end.
Proof.
  revert acc s. induction l1 as [|x l1 IH]; intros acc s; [done|].
  rewrite <- app_comm_cons, !for_each_cons.
  destruct (body acc x s) as [[acc'|e] s']; [apply IH | done].
Qed.

Lemma prices_loop_from (rows : list dict) (ids : list pystr) :
  forall prices,
    for_each rows prices prices_step ids =
      match for_each rows [] prices_step ids with
      | (Ok entries, ids') => (Ok (prices ++ entries), ids')
      | (Raise e, ids') => (Raise e, ids')
      end.
Proof.
  induction rows as [|watch rows IH] using rev_ind; intros prices.
  - simpl. by rewrite app_nil_r.
  - rewrite !for_each_app, (IH prices).
    destruct (for_each rows [] prices_step ids) as [[entries|e] ids']; [|done].
    rewrite !for_each_cons, !prices_step_run.
    case_bool_decide; [|done].
    destruct (price_conversion (price_cell watch)); [|done].
    simpl. by rewrite app_assoc.
Qed.

(** X4. The price updates of two batches of rows put one after the other
    are the updates of the first batch followed by those of the second, and
    the first failure is the failure of the whole: [create_prices] treats
    every row on its own. *)
Theorem create_prices_app (rows1 rows2 : list dict) (ids : list pystr) :
  create_prices (rows1 ++ rows2) ids =
    match create_prices rows1 ids, create_prices rows2 ids with
    | (Ok prices1, _), (Ok prices2, _) => (Ok (prices1 ++ prices2), ids)
    | (Ok _, _), (Raise e, _) => (Raise e, ids)
    | (Raise e, _), _ => (Raise e, ids)
    end.
Proof.
  rewrite !create_prices_unfold, for_each_app.
  pose proof (prices_loop_frame rows1 [] ids) as Hframe1.
  destruct (for_each rows1 [] prices_step ids) as [[prices1|e] ids1];
    simpl in Hframe1; subst ids1.
  - rewrite prices_loop_from.
    pose proof (prices_loop_frame rows2 [] ids) as Hframe2.
    destruct (for_each rows2 [] prices_step ids) as [[prices2|e] ids2];
      simpl in Hframe2; by subst ids2.
  - by destruct (for_each rows2 [] prices_step ids) as [[?|?] ?].
Qed.

Lemma price_conversion_digits (x : pyobj) (converted : pystr) :
  price_conversion x = Ok converted ->
  Forall (fun c => is_ascii_digit c = true) converted.
Proof.
  destruct x as [|s|shown as_int]; try done.
  unfold price_conversion. rewrite str_split_dot_first. simpl.
  intros [= <-]. rewrite re_sub_delete. apply Forall_forall.
  intros c Hc. by apply list_elem_of_filter in Hc as [Hc _].
Qed.

(** X5. Every update that [create_prices] returns is for an offer id of the
    list, carries the fixed fields "UNKNOWN", "RUB" and "0", and has a price
    made of ASCII digits only. *)
Theorem create_prices_updates_well_formed
    (rows : list dict) (ids : list pystr)
    (prices : list Price.t) (ids' : list pystr) :
  create_prices rows ids = (Ok prices, ids') ->
  Forall (fun update =>
            Price.offer_id update ∈ ids
            ∧ Price.auto_action_enabled update = py "UNKNOWN"
            ∧ Price.currency_code update = py "RUB"
            ∧ Price.old_price update = py "0"
            ∧ Forall (fun c => is_ascii_digit c = true) (Price.price update))
         prices.
Proof.
  rewrite create_prices_unfold.
  intros (entries & -> & Hall)%prices_loop_spec. simpl.
  assert (Forall (fun watch => code watch ∈ ids)
                 (filter (fun watch => code watch ∈ ids) rows)) as Hin.
  { apply Forall_forall. intros watch Hw.
    by apply list_elem_of_filter in Hw as [? _]. }
  induction Hall as [|update watch entries rows' (converted & Hconv & ->) _ IH];
    [constructor|].
  apply Forall_cons in Hin as [Hw Hin]. constructor; [|by apply IH].
  split; [exact Hw|]. do 3 (split; [reflexivity|]).
  exact (price_conversion_digits _ _ Hconv).
Qed.

Lemma create_prices_updates_well_formed_witness :
  create_prices [text_row "A" "5" "1'234.50 р"; text_row "Z" "1" "7"] [py "A"; py "B"]
  = (Ok [price_entry (py "A") (py "1234")], [py "A"; py "B"])
  ∧ Forall (fun update =>
              Price.offer_id update ∈ [py "A"; py "B"]
              ∧ Price.auto_action_enabled update = py "UNKNOWN"
              ∧ Price.currency_code update = py "RUB"
              ∧ Price.old_price update = py "0"
              ∧ Forall (fun c => is_ascii_digit c = true) (Price.price update))
           [price_entry (py "A") (py "1234")].
Proof.
  assert (create_prices [text_row "A" "5" "1'234.50 р"; text_row "Z" "1" "7"]
                        [py "A"; py "B"]
          = (Ok [price_entry (py "A") (py "1234")], [py "A"; py "B"])) as Hrun
    by (vm_compute; reflexivity).
  split; [exact Hrun|].
  exact (create_prices_updates_well_formed _ _ _ _ Hrun).
Defined.

(** ** Failures of the reconciliation *)

Lemma stocks_loop_failure {interp : Interpreter} (rows : list dict) :
  forall stocks ids e ids',
    for_each rows stocks stocks_step ids = (Raise e, ids') ->
    exists before watch after stocks',
      rows = before ++ watch :: after
      ∧ for_each before stocks stocks_step ids = (Ok stocks', ids')
      ∧ code watch ∈ ids'
      ∧ classify_stock (quantity watch) = Raise e.
Proof.
  induction rows as [|watch rows IH]; intros stocks ids e ids'; [done|].
  rewrite for_each_cons, stocks_step_run.
  case_bool_decide as Hin.
  - destruct (classify_stock (quantity watch)) as [stock|e0] eqn:Hclass.
    + destruct (remove_first_elem_of _ _ Hin) as (ids1 & Hrm & _).
      rewrite Hrm. intros (before & bad & after & stocks' & -> & Hrun & Hbad)%IH.
      exists (watch :: before), bad, after, stocks'. split; [done|].
      split; [|done].
      rewrite for_each_cons, stocks_step_run, bool_decide_eq_true_2 by done.
      by rewrite Hclass, Hrm.
    + intros [= <- <-]. by exists [], watch, rows, stocks.
  - intros (before & bad & after & stocks' & -> & Hrun & Hbad)%IH.
    exists (watch :: before), bad, after, stocks'. split; [done|].
    split; [|done].
    by rewrite for_each_cons, stocks_step_run, bool_decide_eq_false_2.
Qed.

Lemma stocks_loop_fails_at {interp : Interpreter}
    (before after : list dict) (watch : dict) stocks stocks' ids ids' e :
  for_each before stocks stocks_step ids = (Ok stocks', ids') ->
  code watch ∈ ids' ->
  classify_stock (quantity watch) = Raise e ->
  for_each (before ++ watch :: after) stocks stocks_step ids = (Raise e, ids').
Proof.
  intros Hrun Hin Hclass.
  rewrite for_each_app, Hrun, for_each_cons, stocks_step_run.
  by rewrite bool_decide_eq_true_2, Hclass.
Qed.

(** X6. [create_stocks] fails exactly when some row carries a code that is
    still in the list when the row is reached and a quantity that
    [classify_stock] cannot read; the exception is the one of that reading
    ([list.remove] never fails here), no later row is looked at, and the
    list is left as the preceding rows left it: the ids they matched stay
    removed. *)
Theorem create_stocks_failure {interp : Interpreter}
    (rows : list dict) (ids : list pystr) (e : exn) (ids' : list pystr) :
  create_stocks rows ids = (Raise e, ids')
  <-> exists before watch after stocks,
        rows = before ++ watch :: after
        ∧ create_stocks before ids = (Ok stocks, ids')
        ∧ code watch ∈ ids'
        ∧ classify_stock (quantity watch) = Raise e.
Proof.
  rewrite create_stocks_unfold. split.
  - destruct (for_each rows [] stocks_step ids) as [[stocks|e0] ids0] eqn:Hrun;
      [done|].
    intros [= -> ->].
    apply stocks_loop_failure in Hrun
      as (before & watch & after & stocks' & -> & Hrun & Hin & Hclass).
    exists before, watch, after, (stocks' ++ (zero_stock <$> ids')).
    by rewrite create_stocks_unfold, Hrun.
  - intros (before & watch & after & stocks & -> & Hrun & Hin & Hclass).
    rewrite create_stocks_unfold in Hrun.
    destruct (for_each before [] stocks_step ids) as [[stocks0|e0] ids0] eqn:Hloop;
      [|done].
    injection Hrun as _ ->.
    by rewrite (stocks_loop_fails_at _ _ _ _ _ _ _ _ Hloop Hin Hclass).
Qed.

Lemma create_stocks_failure_witness :
  create_stocks (interp := plain_interpreter)
    [text_row "A" "5" "1"; text_row "B" "abc" "2"; text_row "C" "3" "4"]
    [py "A"; py "B"; py "C"]
  = (Raise ValueError, [py "B"; py "C"]).
Proof.
  apply (proj2 (create_stocks_failure (interp := plain_interpreter) _ _ _ _)).
  exists [text_row "A" "5" "1"], (text_row "B" "abc" "2"),
         [text_row "C" "3" "4"],
         [Stock.mk (py "A") 5; Stock.mk (py "B") 0; Stock.mk (py "C") 0].
  repeat split; try (vm_compute; reflexivity).
  apply (bool_decide_unpack _). vm_compute. exact I.
Defined.

(** X7. [create_stocks] returns whenever the quantity of every row can be
    read by [classify_stock], whatever the codes and the list are. *)
Theorem create_stocks_total_on_readable_quantities {interp : Interpreter}
    (rows : list dict) (ids : list pystr) :
  Forall (fun watch => exists z, classify_stock (quantity watch) = Ok z) rows ->
  exists stocks ids', create_stocks rows ids = (Ok stocks, ids').
Proof.
  intros Hall. rewrite create_stocks_unfold.
  destruct (stocks_loop_returns rows [] ids Hall) as (stocks & ids' & ->).
  by eexists _, _.
Qed.

Lemma create_stocks_total_on_readable_quantities_witness :
  exists stocks ids',
    create_stocks (interp := plain_interpreter)
      [text_row "A" ">10" "1"; text_row "Z" "1" "2"] [py "A"; py "A"]
    = (Ok stocks, ids').
Proof.
  apply (create_stocks_total_on_readable_quantities (interp := plain_interpreter)).
  repeat constructor.
  - exists 100. vm_compute. reflexivity.
  - exists 0. vm_compute. reflexivity.
Defined.



(** * Further properties of [price_conversion] and [divide] *)

Lemma price_conversion_str (s : pystr) :
  price_conversion (PyStr s) =
    Ok (filter (fun c => is_ascii_digit c = true) (before_first_dot s)).
Proof.
  unfold price_conversion. rewrite str_split_dot_first. simpl.
  by rewrite re_sub_delete.
Qed.

Lemma before_first_dot_sublist (s : pystr) : before_first_dot s `sublist_of` s.
Proof.
  destruct (before_first_dot_split s) as [_ [Heq|[rest Heq]]].
  - by rewrite <- Heq.
  - rewrite Heq at 2. by apply sublist_inserts_r.
Qed.

(** X9. What [price_conversion] returns is a subsequence of the text it was
    given (characters are only ever deleted, never added or reordered), and
    converting it again changes nothing. *)
Theorem price_conversion_idempotent (price : pyobj) (converted : pystr) :
  price_conversion price = Ok converted ->
  converted `sublist_of` py_str price
  ∧ price_conversion (PyStr converted) = Ok converted.
Proof.
  destruct price as [|s|shown as_int]; try done.
  rewrite price_conversion_str. intros [= <-]. split.
  - simpl py_str. etrans; [apply sublist_filter|apply before_first_dot_sublist].
  - set (digits := filter _ _).
    assert (forall c, c ∈ digits -> is_ascii_digit c = true) as Hdigits.
    { intros c Hc. by apply list_elem_of_filter in Hc as [Hc _]. }
    rewrite price_conversion_str, before_first_dot_no_dot.
    + by rewrite filter_all.
    + intros Hdot. by apply Hdigits in Hdot.
Qed.

Lemma price_conversion_idempotent_witness :
  price_conversion (PyStr (py "5'990.00 руб")) = Ok (py "5990")
  ∧ py "5990" `sublist_of` py_str (PyStr (py "5'990.00 руб"))
  ∧ price_conversion (PyStr (py "5990")) = Ok (py "5990").
Proof.
  assert (price_conversion (PyStr (py "5'990.00 руб")) = Ok (py "5990")) as Hrun
    by (vm_compute; reflexivity).
  split; [exact Hrun|].
  exact (price_conversion_idempotent (PyStr (py "5'990.00 руб")) (py "5990") Hrun).
Defined.

Lemma no_digit_before_first_dot (s : pystr) :
  filter (fun c => is_ascii_digit c = true) (before_first_dot s) = []
  <-> forall (i : nat) c,
        s !! i = Some c -> is_ascii_digit c = true ->
        exists j : nat, (j < i)%nat ∧ s !! j = Some 46%N.
Proof.
  induction s as [|c s IH]; [done|]. simpl.
  destruct (N.eqb_spec c 46) as [->|Hdot].
  - split; [|done]. intros _ [|i] d; simpl.
    + by intros [= <-].
    + intros _ _. exists O. split; [lia|done].
  - rewrite filter_cons. case_decide as Hdigit.
    + split; [done|]. intros Hall.
      destruct (Hall O c eq_refl Hdigit) as (j & Hj & _). lia.
    + rewrite IH. split.
      * intros Hall [|i] d; simpl; [by intros [= <-]|].
        intros Hd Hdig. destruct (Hall i d Hd Hdig) as (j & Hj & Hdotj).
        exists (S j). split; [lia|done].
      * intros Hall i d Hd Hdig.
        destruct (Hall (S i) d Hd Hdig) as ([|j] & Hj & Hdotj); simpl in Hdotj.
        -- by injection Hdotj.
        -- exists j. split; [lia|done].
Qed.

(** X10. [price_conversion] returns the empty string exactly when the text
    has no ASCII digit before its first '.': a price such as ".99" or "n/a"
    is turned into the empty string without any error. *)
Theorem price_conversion_empty (s : pystr) :
  price_conversion (PyStr s) = Ok []
  <-> forall (i : nat) c,
        s !! i = Some c -> is_ascii_digit c = true ->
        exists j : nat, (j < i)%nat ∧ s !! j = Some 46%N.
Proof.
  rewrite price_conversion_str, <- no_digit_before_first_dot.
  split; [by intros [= ->]|by intros ->].
Qed.

(** X11. A chunk size that is not positive: [divide] raises [ValueError]
    for [n = 0] (from [range]) and, for a negative [n], yields no chunk at
    all, so the elements of the list are dropped without an error. *)
Theorem divide_nonpositive {A : Type} (lst : list A) (n : Z) :
  n <= 0 ->
  divide lst n = if decide (n = 0) then Raise ValueError else Ok [].
Proof.
  intros Hn. unfold divide, py_range.
  case_decide as Hz.
  - subst n. done.
  - rewrite (proj2 (Z.eqb_neq n 0)) by done.
    unfold range_length.
    rewrite (proj2 (Z.ltb_ge 0 n)) by lia.
    by rewrite (proj2 (Z.ltb_ge (Z.of_nat (length lst)) 0)) by lia.
Qed.

Lemma divide_nonpositive_witness :
  divide [1; 2; 3] 0 = Raise ValueError ∧ divide [1; 2; 3] (-2) = Ok [].
Proof.
  split.
  - apply (divide_nonpositive [1; 2; 3] 0). lia.
  - apply (divide_nonpositive [1; 2; 3] (-2)). lia.
Defined.

(** X12. For a positive [n], [divide] yields the ceiling of [len / n]
    chunks, and element [j] of chunk [i] is element [i * n + j] of the list:
    no element is lost, repeated or moved. *)
Theorem divide_chunk_elements {A : Type} (lst : list A) (n : Z)
    (chunks : list (list A)) :
  0 < n ->
  divide lst n = Ok chunks ->
  length chunks = ((length lst + Z.to_nat n - 1) / Z.to_nat n)%nat
  ∧ forall i j : nat,
      (j < Z.to_nat n)%nat ->
      chunks !! i ≫= (.!! j) = lst !! (i * Z.to_nat n + j)%nat.
Proof.
  intros Hn.
  set (m := Z.to_nat n). assert (Hm : (0 < m)%nat) by lia.
  replace n with (Z.of_nat m) by lia.
  rewrite divide_pieces by done. intros [= <-].
  set (c := if decide (length lst = O) then O else S ((length lst - 1) / m)).
  assert (Hc : (length lst <= c * m)%nat).
  { subst c. case_decide; [lia|].
    pose proof (Nat.div_mod_eq (length lst - 1) m).
    pose proof (Nat.mod_upper_bound (length lst - 1) m). nia. }
  split.
  - rewrite length_pieces. subst c. case_decide as Hlen.
    + rewrite Hlen. simpl. symmetry. apply Nat.div_small. lia.
    + replace (length lst + m - 1)%nat with (length lst - 1 + 1 * m)%nat by lia.
      rewrite Nat.div_add by lia. lia.
  - intros i j Hj. unfold pieces. rewrite list_lookup_fmap.
    destruct (decide (i < c)%nat) as [Hi|Hi].
    + rewrite lookup_seq_lt by done. simpl.
      rewrite lookup_take_lt by done. rewrite lookup_drop. done.
    + rewrite lookup_seq_ge by lia. simpl. symmetry.
      apply lookup_ge_None. nia.
Qed.

Lemma divide_chunk_elements_witness :
  divide [10; 20; 30; 40; 50] 2 = Ok [[10; 20]; [30; 40]; [50]]
  ∧ length [[10; 20]; [30; 40]; [50]] = ((5 + 2 - 1) / 2)%nat
  ∧ [[10; 20]; [30; 40]; [50]] !! 2%nat ≫= (.!! 0%nat)
    = [10; 20; 30; 40; 50] !! 4%nat.
Proof.
  assert (divide [10; 20; 30; 40; 50] 2 = Ok [[10; 20]; [30; 40]; [50]]) as Hrun
    by (vm_compute; reflexivity).
  split; [exact Hrun|].
  destruct (divide_chunk_elements _ _ _ (ltac:(lia) : 0 < 2) Hrun) as [Hlen Hat].
  split; [exact Hlen|]. apply (Hat 2%nat 0%nat). simpl. lia.
Defined.

(** * Further properties of the orchestration *)

Lemma divide_returns {A : Type} (lst : list A) (n : Z) :
  0 < n -> exists chunks, divide lst n = Ok chunks.
Proof.
  intros Hn. replace n with (Z.of_nat (Z.to_nat n)) by lia.
  eexists. apply divide_pieces. lia.
Qed.

(** A loop of calls, one per batch: the batches before [n] are accepted;
    batch [n], when there is one, is refused and ends the loop. *)
Lemma calls_run {A : Type} (mk : A -> event)
    (outcome : list event -> A -> result ()) (batches : list A) :
  forall s, exists n : nat,
    (forall (i : nat) batch,
        (i < n)%nat -> batches !! i = Some batch ->
        outcome (trace s ++ (mk <$> take i batches)) batch = Ok ())
    ∧ match batches !! n with
      | None =>
          for_each batches () (fun _ batch =>
            call (mk batch) (fun history => outcome history batch)) s
          = (Ok (), {| offer_ids_obj := offer_ids_obj s;
                       trace := trace s ++ (mk <$> batches) |})
      | Some batch =>
          exists e,
            outcome (trace s ++ (mk <$> take n batches)) batch = Raise e
            ∧ for_each batches () (fun _ batch =>
                call (mk batch) (fun history => outcome history batch)) s
              = (Raise e, {| offer_ids_obj := offer_ids_obj s;
                             trace := trace s ++ (mk <$> take (S n) batches) |})
      end.
Proof.
  induction batches as [|batch batches IH]; intros s.
  - exists O. split; [intros i batch Hi; lia|].
    simpl. rewrite app_nil_r. by destruct s.
  - destruct (outcome (trace s) batch) as [[]|e] eqn:Hout.
    + destruct (IH {| offer_ids_obj := offer_ids_obj s;
                      trace := trace s ++ [mk batch] |}) as (n & Hacc & Hrun).
      simpl trace in Hacc, Hrun. simpl offer_ids_obj in Hrun.
      assert (forall evs, trace s ++ mk batch :: evs
                          = (trace s ++ [mk batch]) ++ evs) as Hshift
        by (intros evs; by rewrite <- app_assoc).
      exists (S n). split.
      * intros [|i] b Hi Hb.
        -- injection Hb as <-. simpl. by rewrite app_nil_r.
        -- change ((batch :: batches) !! S i) with (batches !! i) in Hb.
           change (take (S i) (batch :: batches)) with (batch :: take i batches).
           rewrite fmap_cons, (Hshift (mk <$> take i batches)).
           apply Hacc; [lia|done].
      * change ((batch :: batches) !! S n) with (batches !! n).
        destruct (batches !! n) as [b|].
        -- destruct Hrun as (e & He & Hrun). exists e.
           change (take (S n) (batch :: batches)) with (batch :: take n batches).
           change (take (S (S n)) (batch :: batches))
             with (batch :: take (S n) batches).
           rewrite !fmap_cons, (Hshift (mk <$> take n batches)),
             (Hshift (mk <$> take (S n) batches)).
           split; [exact He|].
           rewrite for_each_cons. unfold call at 1. rewrite Hout. exact Hrun.
        -- rewrite fmap_cons, (Hshift (mk <$> batches)).
           rewrite for_each_cons. unfold call at 1. rewrite Hout. exact Hrun.
    + exists O. split; [intros i b Hi; lia|]. simpl lookup.
      exists e. simpl take. rewrite app_nil_r. split; [done|].
      rewrite for_each_cons. unfold call at 1. by rewrite Hout.
Qed.

Lemma submit_stocks_run {interp : Interpreter} (w : world)
    (stocks : list Stock.t) (size : Z) (s : run_state) :
  0 < size ->
  exists batches (n : nat),
    divide stocks size = Ok batches
    ∧ (forall (i : nat) batch,
          (i < n)%nat -> batches !! i = Some batch ->
          update_stocks w (trace s ++ (Ev_update_stocks <$> take i batches)) batch
          = Ok ())
    ∧ match batches !! n with
      | None =>
          submit_stocks w stocks size s
          = (Ok (), {| offer_ids_obj := offer_ids_obj s;
                       trace := trace s ++ (Ev_update_stocks <$> batches) |})
      | Some batch =>
          exists e,
            update_stocks w (trace s ++ (Ev_update_stocks <$> take n batches)) batch
            = Raise e
            ∧ submit_stocks w stocks size s
              = (Raise e,
                 {| offer_ids_obj := offer_ids_obj s;
                    trace := trace s ++ (Ev_update_stocks <$> take (S n) batches) |})
      end.
Proof.
  intros Hsize. destruct (divide_returns stocks size Hsize) as [batches Hdiv].
  destruct (calls_run Ev_update_stocks (update_stocks w) batches s)
    as (n & Hacc & Hrun).
  exists batches, n. split; [done|]. split; [exact Hacc|].
  unfold submit_stocks. rewrite bind_run, Hdiv. unfold lift. exact Hrun.
Qed.

Lemma submit_prices_run {interp : Interpreter} (w : world)
    (prices : list Price.t) (size : Z) (s : run_state) :
  0 < size ->
  exists batches (n : nat),
    divide prices size = Ok batches
    ∧ (forall (i : nat) batch,
          (i < n)%nat -> batches !! i = Some batch ->
          update_price w (trace s ++ (Ev_update_price <$> take i batches)) batch
          = Ok ())
    ∧ match batches !! n with
      | None =>
          submit_prices w prices size s
          = (Ok (), {| offer_ids_obj := offer_ids_obj s;
                       trace := trace s ++ (Ev_update_price <$> batches) |})
      | Some batch =>
          exists e,
            update_price w (trace s ++ (Ev_update_price <$> take n batches)) batch
            = Raise e
            ∧ submit_prices w prices size s
              = (Raise e,
                 {| offer_ids_obj := offer_ids_obj s;
                    trace := trace s ++ (Ev_update_price <$> take (S n) batches) |})
      end.
Proof.
  intros Hsize. destruct (divide_returns prices size Hsize) as [batches Hdiv].
  destruct (calls_run Ev_update_price (update_price w) batches s)
    as (n & Hacc & Hrun).
  exists batches, n. split; [done|]. split; [exact Hacc|].
  unfold submit_prices. rewrite bind_run, Hdiv. unfold lift. exact Hrun.
Qed.

Lemma upload_stocks_unfold {interp : Interpreter} (w : world) (rows : list dict) :
  run (upload_stocks w rows) =
    match get_offer_ids w [] with
    | Raise e => (Raise e, {| offer_ids_obj := []; trace := [Ev_get_offer_ids] |})
    | Ok ids =>
        match create_stocks rows ids with
        | (Raise e, ids') =>
            (Raise e, {| offer_ids_obj := ids'; trace := [Ev_get_offer_ids] |})
        | (Ok stocks, ids') =>
            match submit_stocks w stocks 100
                    {| offer_ids_obj := ids'; trace := [Ev_get_offer_ids] |} with
            | (Raise e, st) => (Raise e, st)
            | (Ok _, st) =>
                (Ok (filter (fun stock => Stock.stock stock ≠ 0) stocks, stocks),
                 st)
            end
        end
    end.
Proof.
  unfold run, upload_stocks.
  rewrite bind_run. unfold call at 1. simpl trace. simpl offer_ids_obj.
  destruct (get_offer_ids w []) as [ids|e]; [|done].
  rewrite bind_run. unfold on_offer_ids at 1, put.
  rewrite bind_run. unfold on_offer_ids at 1. simpl offer_ids_obj.
  destruct (create_stocks rows ids) as [[stocks|e] ids']; [|done].
  rewrite bind_run. simpl trace.
  by destruct (submit_stocks w stocks 100 _) as [[[]|e] st].
Qed.

Lemma upload_prices_unfold {interp : Interpreter} (w : world) (rows : list dict) :
  run (upload_prices w rows) =
    match get_offer_ids w [] with
    | Raise e => (Raise e, {| offer_ids_obj := []; trace := [Ev_get_offer_ids] |})
    | Ok ids =>
        match create_prices rows ids with
        | (Raise e, ids') =>
            (Raise e, {| offer_ids_obj := ids'; trace := [Ev_get_offer_ids] |})
        | (Ok prices, ids') =>
            match submit_prices w prices 1000
                    {| offer_ids_obj := ids'; trace := [Ev_get_offer_ids] |} with
            | (Raise e, st) => (Raise e, st)
            | (Ok _, st) => (Ok prices, st)
            end
        end
    end.
Proof.
  unfold run, upload_prices.
  rewrite bind_run. unfold call at 1. simpl trace. simpl offer_ids_obj.
  destruct (get_offer_ids w []) as [ids|e]; [|done].
  rewrite bind_run. unfold on_offer_ids at 1, put.
  rewrite bind_run. unfold on_offer_ids at 1. simpl offer_ids_obj.
  destruct (create_prices rows ids) as [[prices|e] ids']; [|done].
  rewrite bind_run. simpl trace.
  by destruct (submit_prices w prices 1000 _) as [[[]|e] st].
Qed.

Lemma main_try_unfold {interp : Interpreter} (w : world) :
  run (main_try w) =
    match get_offer_ids w [] with
    | Raise e => (Raise e, {| offer_ids_obj := []; trace := [Ev_get_offer_ids] |})
    | Ok ids =>
        match download_stock w [Ev_get_offer_ids] with
        | Raise e =>
            (Raise e, {| offer_ids_obj := ids;
                         trace := [Ev_get_offer_ids; Ev_download_stock] |})
        | Ok rows =>
            match create_stocks rows ids with
            | (Raise e, ids') =>
                (Raise e, {| offer_ids_obj := ids';
                             trace := [Ev_get_offer_ids; Ev_download_stock] |})
            | (Ok stocks, ids') =>
                match submit_stocks w stocks 100
                        {| offer_ids_obj := ids';
                           trace := [Ev_get_offer_ids; Ev_download_stock] |} with
                | (Raise e, st) => (Raise e, st)
                | (Ok _, st) =>
                    match create_prices rows (offer_ids_obj st) with
                    | (Raise e, ids'') =>
                        (Raise e, {| offer_ids_obj := ids''; trace := trace st |})
                    | (Ok prices, ids'') =>
                        submit_prices w prices 900
                          {| offer_ids_obj := ids''; trace := trace st |}
                    end
                end
            end
        end
    end.
Proof.
  unfold run, main_try.
  rewrite bind_run. unfold call at 1. simpl trace. simpl offer_ids_obj.
  destruct (get_offer_ids w []) as [ids|e]; [|done].
  rewrite bind_run. unfold on_offer_ids at 1, put.
  rewrite bind_run. unfold call at 1. simpl trace. simpl offer_ids_obj.
  destruct (download_stock w _) as [rows|e]; [|done].
  rewrite bind_run. unfold on_offer_ids at 1. simpl offer_ids_obj. simpl trace.
  destruct (create_stocks rows ids) as [[stocks|e] ids']; [|done].
  rewrite bind_run.
  destruct (submit_stocks w stocks 100 _) as [[[]|e] st]; [|done].
  rewrite bind_run. unfold on_offer_ids at 1.
  by destruct (create_prices rows (offer_ids_obj st)) as [[prices|e] ids''].
Qed.

(** X13. What a run of [upload_stocks] does, case by case.  A failure of the
    catalogue request or of the reconciliation ends it before anything is
    submitted.  Otherwise the updates are cut into batches of 100, which are
    submitted in order after the one catalogue request; the first batch that
    is refused ends the run with that error, the batches before it stay
    submitted and nothing is tried again.  When every batch is accepted the
    run returns the updates with a stock other than 0 together with all
    updates. *)
Theorem upload_stocks_outcome {interp : Interpreter} (w : world)
    (rows : list dict) :
  match get_offer_ids w [] with
  | Raise e =>
      run (upload_stocks w rows)
      = (Raise e, {| offer_ids_obj := []; trace := [Ev_get_offer_ids] |})
  | Ok ids =>
      match create_stocks rows ids with
      | (Raise e, ids') =>
          run (upload_stocks w rows)
          = (Raise e, {| offer_ids_obj := ids'; trace := [Ev_get_offer_ids] |})
      | (Ok stocks, ids') =>
          exists batches (n : nat),
            divide stocks 100 = Ok batches
            ∧ (forall (i : nat) batch,
                  (i < n)%nat -> batches !! i = Some batch ->
                  update_stocks w
                    (Ev_get_offer_ids :: (Ev_update_stocks <$> take i batches))
                    batch = Ok ())
            ∧ match batches !! n with
              | None =>
                  run (upload_stocks w rows)
                  = (Ok (filter (fun stock => Stock.stock stock ≠ 0) stocks,
                         stocks),
                     {| offer_ids_obj := ids';
                        trace := Ev_get_offer_ids
                                 :: (Ev_update_stocks <$> batches) |})
              | Some batch =>
                  exists e,
                    update_stocks w
                      (Ev_get_offer_ids :: (Ev_update_stocks <$> take n batches))
                      batch = Raise e
                    ∧ run (upload_stocks w rows)
                      = (Raise e,
                         {| offer_ids_obj := ids';
                            trace := Ev_get_offer_ids
                                     :: (Ev_update_stocks
                                           <$> take (S n) batches) |})
              end
      end
  end.
Proof.
  rewrite upload_stocks_unfold.
  destruct (get_offer_ids w []) as [ids|e]; [|done].
  destruct (create_stocks rows ids) as [[stocks|e] ids']; [|done].
  destruct (submit_stocks_run w stocks 100
              {| offer_ids_obj := ids'; trace := [Ev_get_offer_ids] |})
    as (batches & n & Hdiv & Hacc & Hrun); [lia|].
  exists batches, n. split; [done|]. split; [exact Hacc|].
  simpl trace in *. simpl offer_ids_obj in *.
  destruct (batches !! n) as [batch|].
  - destruct Hrun as (e & He & Hrun). exists e. split; [exact He|].
    by rewrite Hrun.
  - by rewrite Hrun.
Qed.

(** X14. What a run of [upload_prices] does, case by case: as for
    [upload_stocks], with batches of 1000 and [create_prices].  The list of
    offer ids that it fetched is whole at the end, and the run returns the
    price updates, one per row whose code is in that list. *)
Theorem upload_prices_outcome {interp : Interpreter} (w : world)
    (rows : list dict) :
  match get_offer_ids w [] with
  | Raise e =>
      run (upload_prices w rows)
      = (Raise e, {| offer_ids_obj := []; trace := [Ev_get_offer_ids] |})
  | Ok ids =>
      match create_prices rows ids with
      | (Raise e, _) =>
          run (upload_prices w rows)
          = (Raise e, {| offer_ids_obj := ids; trace := [Ev_get_offer_ids] |})
      | (Ok prices, _) =>
          Forall2 priced_from prices
                  (filter (fun watch => code watch ∈ ids) rows)
          ∧ exists batches (n : nat),
            divide prices 1000 = Ok batches
            ∧ (forall (i : nat) batch,
                  (i < n)%nat -> batches !! i = Some batch ->
                  update_price w
                    (Ev_get_offer_ids :: (Ev_update_price <$> take i batches))
                    batch = Ok ())
            ∧ match batches !! n with
              | None =>
                  run (upload_prices w rows)
                  = (Ok prices,
                     {| offer_ids_obj := ids;
                        trace := Ev_get_offer_ids
                                 :: (Ev_update_price <$> batches) |})
              | Some batch =>
                  exists e,
                    update_price w
                      (Ev_get_offer_ids :: (Ev_update_price <$> take n batches))
                      batch = Raise e
                    ∧ run (upload_prices w rows)
                      = (Raise e,
                         {| offer_ids_obj := ids;
                            trace := Ev_get_offer_ids
                                     :: (Ev_update_price
                                           <$> take (S n) batches) |})
              end
      end
  end.
Proof.
  rewrite upload_prices_unfold.
  destruct (get_offer_ids w []) as [ids|e]; [|done].
  pose proof (prices_loop_frame rows [] ids) as Hframe.
  pose proof (prices_loop_spec rows [] ids) as Hspec.
  rewrite <- create_prices_unfold in Hframe, Hspec.
  destruct (create_prices rows ids) as [[prices|e] ids'];
    simpl in Hframe; subst ids'; [|done].
  destruct (Hspec prices ids eq_refl) as (entries & -> & Hentries).
  split; [exact Hentries|].
  destruct (submit_prices_run w ([] ++ entries) 1000
              {| offer_ids_obj := ids; trace := [Ev_get_offer_ids] |})
    as (batches & n & Hdiv & Hacc & Hrun); [lia|].
  exists batches, n. split; [done|]. split; [exact Hacc|].
  simpl trace in *. simpl offer_ids_obj in *.
  destruct (batches !! n) as [batch|].
  - destruct Hrun as (e & He & Hrun). exists e. split; [exact He|].
    by rewrite Hrun.
  - by rewrite Hrun.
Qed.

(** X15. A run of the [try] of [main] that comes to its end has made the
    catalogue request and the download, then submitted the stock updates in
    batches of 100 and then the price updates in batches of 900, every
    submission being accepted.  The price updates are those that
    [create_prices] computes from the list as [create_stocks] left it, not
    from the list that was fetched. *)
Theorem main_try_returns {interp : Interpreter} (w : world) (st : run_state) :
  run (main_try w) = (Ok (), st) ->
  exists ids rows stocks prices stock_batches price_batches,
    get_offer_ids w [] = Ok ids
    ∧ download_stock w [Ev_get_offer_ids] = Ok rows
    ∧ create_stocks rows ids = (Ok stocks, offer_ids_obj st)
    ∧ create_prices rows (offer_ids_obj st) = (Ok prices, offer_ids_obj st)
    ∧ divide stocks 100 = Ok stock_batches
    ∧ divide prices 900 = Ok price_batches
    ∧ trace st = [Ev_get_offer_ids; Ev_download_stock]
                 ++ (Ev_update_stocks <$> stock_batches)
                 ++ (Ev_update_price <$> price_batches)
    ∧ (forall (i : nat) batch,
          stock_batches !! i = Some batch ->
          update_stocks w
            ([Ev_get_offer_ids; Ev_download_stock]
             ++ (Ev_update_stocks <$> take i stock_batches)) batch = Ok ())
    ∧ (forall (i : nat) batch,
          price_batches !! i = Some batch ->
          update_price w
            (([Ev_get_offer_ids; Ev_download_stock]
              ++ (Ev_update_stocks <$> stock_batches))
             ++ (Ev_update_price <$> take i price_batches)) batch = Ok ()).
Proof.
  rewrite main_try_unfold.
  destruct (get_offer_ids w []) as [ids|e] eqn:Hids; [|done].
  destruct (download_stock w _) as [rows|e] eqn:Hrows; [|done].
  destruct (create_stocks rows ids) as [[stocks|e] ids'] eqn:Hstocks; [|done].
  destruct (submit_stocks_run w stocks 100
              {| offer_ids_obj := ids';
                 trace := [Ev_get_offer_ids; Ev_download_stock] |})
    as (sb & n & Hsdiv & Hsacc & Hsrun); [lia|].
  simpl trace in *. simpl offer_ids_obj in *.
  destruct (sb !! n) as [batch|] eqn:Hn;
    [destruct Hsrun as (e & _ & Hsrun); by rewrite Hsrun|].
  rewrite Hsrun. simpl offer_ids_obj. simpl trace.
  pose proof (prices_loop_frame rows [] ids') as Hframe.
  rewrite <- create_prices_unfold in Hframe.
  destruct (create_prices rows ids') as [[prices|e] ids''] eqn:Hprices;
    simpl in Hframe; subst ids''; [|done].
  destruct (submit_prices_run w prices 900
              {| offer_ids_obj := ids';
                 trace := Ev_get_offer_ids :: Ev_download_stock
                          :: (Ev_update_stocks <$> sb) |})
    as (pb & m & Hpdiv & Hpacc & Hprun); [lia|].
  simpl trace in *. simpl offer_ids_obj in *.
  destruct (pb !! m) as [batch|] eqn:Hm;
    [destruct Hprun as (e & _ & Hprun); by rewrite Hprun|].
  rewrite Hprun. intros [= <-]. simpl.
  exists ids, rows, stocks, prices, sb, pb.
  repeat (split; [done|]). split.
  - intros i batch Hi. apply Hsacc; [|done].
    apply lookup_lt_Some in Hi. apply lookup_ge_None in Hn. lia.
  - intros i batch Hi. apply Hpacc; [|done].
    apply lookup_lt_Some in Hi. apply lookup_ge_None in Hm. lia.
Qed.

Lemma main_try_returns_witness :
  exists ids rows stocks prices stock_batches price_batches,
    get_offer_ids end_to_end_world [] = Ok ids
    ∧ download_stock end_to_end_world [Ev_get_offer_ids] = Ok rows
    ∧ create_stocks (interp := plain_interpreter) rows ids = (Ok stocks, [])
    ∧ create_prices rows [] = (Ok prices, [])
    ∧ divide stocks 100 = Ok stock_batches
    ∧ divide prices 900 = Ok price_batches
    ∧ [Ev_get_offer_ids; Ev_download_stock;
       Ev_update_stocks [Stock.mk (py "X") 100]]
      = [Ev_get_offer_ids; Ev_download_stock]
        ++ (Ev_update_stocks <$> stock_batches)
        ++ (Ev_update_price <$> price_batches)
    ∧ (forall (i : nat) batch,
          stock_batches !! i = Some batch ->
          update_stocks end_to_end_world
            ([Ev_get_offer_ids; Ev_download_stock]
             ++ (Ev_update_stocks <$> take i stock_batches)) batch = Ok ())
    ∧ (forall (i : nat) batch,
          price_batches !! i = Some batch ->
          update_price end_to_end_world
            (([Ev_get_offer_ids; Ev_download_stock]
              ++ (Ev_update_stocks <$> stock_batches))
             ++ (Ev_update_price <$> take i price_batches)) batch = Ok ()).
Proof.
  apply (main_try_returns (interp := plain_interpreter) end_to_end_world
           {| offer_ids_obj := [];
              trace := [Ev_get_offer_ids; Ev_download_stock;
                        Ev_update_stocks [Stock.mk (py "X") 100]] |}).
  vm_compute. reflexivity.
Defined.

(** X20. A row without a quantity cell whose code is in the list makes
    [create_stocks] fail with [TypeError] ([int(None)]); when it is the
    first row the list is still whole and no later row is looked at. *)
Theorem create_stocks_missing_quantity {interp : Interpreter}
    (watch : dict) (rows : list dict) (ids : list pystr) :
  watch !! py "Количество" = None ->
  code watch ∈ ids ->
  create_stocks (watch :: rows) ids = (Raise TypeError, ids).
Proof.
  intros Hmissing Hin.
  rewrite create_stocks_unfold, for_each_cons, stocks_step_run.
  rewrite bool_decide_eq_true_2 by done.
  unfold quantity, dict_get. rewrite Hmissing. simpl default.
  unfold classify_stock. simpl py_str.
  case_decide as Hmany; [by vm_compute in Hmany|].
  case_decide as Hone; [by vm_compute in Hone|]. done.
Qed.

Lemma create_stocks_missing_quantity_witness :
  create_stocks (interp := plain_interpreter)
    [{[ py "Код" := PyStr (py "A") ]}; text_row "B" "5" "1"]
    [py "A"; py "B"]
  = (Raise TypeError, [py "A"; py "B"]).
Proof.
  apply (create_stocks_missing_quantity (interp := plain_interpreter)).
  - vm_compute. reflexivity.
  - apply (bool_decide_unpack _). vm_compute. exact I.
Defined.

(** * Properties of the catalogue loop *)

Section CatalogLoop.
Variable get_product_list : nat -> pyobj -> result (option Catalog.page).

Lemma fetched_cons (some_prod : Catalog.page) (pages : list Catalog.page) :
  fetched (some_prod :: pages)
  = default [] (Catalog.items some_prod) ++ fetched pages.
Proof. reflexivity. Qed.

Lemma cursor_shift (first : pyobj) (some_prod : Catalog.page)
    (pages : list Catalog.page) (k : nat) :
  (k < length pages)%nat ->
  cursor first (some_prod :: pages) (S k)
  = cursor (Catalog.last_id some_prod) pages k.
Proof.
  intros Hk. destruct k as [|k]; [done|]. simpl.
  destruct (pages !! k) as [q|] eqn:Hq; [done|].
  apply lookup_ge_None in Hq. lia.
Qed.

Lemma fetch_returns (fuel : nat) :
  forall requests first product_list product_list',
    Catalog.fetch get_product_list fuel requests first product_list
    = Some (Ok product_list') ->
    exists pages,
      (0 < length pages <= fuel)%nat
      ∧ (forall (k : nat) some_prod,
            pages !! k = Some some_prod ->
            get_product_list (requests + k) (cursor first pages k)
            = Ok (Some some_prod)
            ∧ (exists more, Catalog.items some_prod = Some more)
            ∧ (Catalog.total some_prod
               = Some (Z.of_nat (length product_list
                                 + length (fetched (take (S k) pages))))
               <-> S k = length pages))
      ∧ product_list' = product_list ++ fetched pages.
Proof.
  induction fuel as [|fuel IH]; intros requests first product_list product_list';
    [done|].
  simpl.
  destruct (get_product_list requests first) as [[some_prod|]|e] eqn:Hpage;
    try done.
  destruct (Catalog.items some_prod) as [more|] eqn:Hitems; [|done].
  rewrite length_app.
  case_decide as Htotal.
  - intros [= <-]. exists [some_prod]. split; [simpl; lia|]. split.
    + intros [|k] p Hk; [|done]. injection Hk as <-.
      rewrite Nat.add_0_r. split; [done|]. split; [by eexists|].
      simpl take. rewrite fetched_cons, Hitems. simpl.
      by rewrite app_nil_r.
    + rewrite fetched_cons, Hitems. simpl. by rewrite app_nil_r.
  - intros (pages & Hlen & Hpages & ->)%IH.
    exists (some_prod :: pages). split; [simpl; lia|]. split.
    + intros [|k] p Hk.
      * injection Hk as <-. rewrite Nat.add_0_r. split; [done|].
        split; [by eexists|].
        simpl take. rewrite fetched_cons, Hitems. simpl. rewrite app_nil_r.
        split; [done|lia].
      * change ((some_prod :: pages) !! S k) with (pages !! k) in Hk.
        destruct (Hpages k p Hk) as (Hreq & Hmore & Hcount).
        replace (requests + S k)%nat with (S requests + k)%nat by lia.
        rewrite cursor_shift by (by apply lookup_lt_Some in Hk).
        split; [done|]. split; [done|].
        change (take (S (S k)) (some_prod :: pages))
          with (some_prod :: take (S k) pages).
        rewrite fetched_cons, Hitems. simpl default.
        rewrite length_app in Hcount. rewrite length_app.
        rewrite Nat.add_assoc. rewrite Hcount. simpl. lia.
    + rewrite fetched_cons, Hitems. simpl. by rewrite app_assoc.
Qed.

Lemma fetch_enough (pages : list Catalog.page) :
  forall requests first product_list,
    pages ≠ [] ->
    (forall (k : nat) some_prod,
        pages !! k = Some some_prod ->
        get_product_list (requests + k) (cursor first pages k)
        = Ok (Some some_prod)
        ∧ (exists more, Catalog.items some_prod = Some more)
        ∧ (Catalog.total some_prod
           = Some (Z.of_nat (length product_list
                             + length (fetched (take (S k) pages))))
           <-> S k = length pages)) ->
    forall fuel, (length pages <= fuel)%nat ->
      Catalog.fetch get_product_list fuel requests first product_list
      = Some (Ok (product_list ++ fetched pages)).
Proof.
  induction pages as [|some_prod pages IH];
    intros requests first product_list Hne Hpages fuel Hfuel; [done|].
  destruct fuel as [|fuel]; [simpl in Hfuel; lia|]. simpl in Hfuel.
  destruct (Hpages O some_prod eq_refl) as (Hreq & [more Hitems] & Hcount).
  rewrite Nat.add_0_r in Hreq. simpl cursor in Hreq.
  simpl take in Hcount. rewrite fetched_cons, Hitems in Hcount.
  simpl in Hcount. rewrite app_nil_r in Hcount.
  simpl. rewrite Hreq, Hitems, length_app.
  rewrite fetched_cons, Hitems. simpl default.
  case_decide as Htotal.
  - apply Hcount in Htotal. destruct pages; [|simpl in Htotal; lia].
    by rewrite app_nil_r.
  - rewrite app_assoc. apply IH; [| |lia].
    + intros ->. apply Htotal, Hcount. done.
    + intros k p Hk.
      destruct (Hpages (S k) p Hk) as (Hreq' & Hmore' & Hcount').
      replace (requests + S k)%nat with (S requests + k)%nat in Hreq' by lia.
      rewrite cursor_shift in Hreq' by (by apply lookup_lt_Some in Hk).
      split; [done|]. split; [done|].
      change (take (S (S k)) (some_prod :: pages))
        with (some_prod :: take (S k) pages) in Hcount'.
      rewrite fetched_cons, Hitems in Hcount'. simpl default in Hcount'.
      rewrite length_app in Hcount'. rewrite length_app.
      rewrite Nat.add_assoc in Hcount'. rewrite Hcount'. simpl. lia.
Qed.

Lemma collect_spec (product_list : list (option dict)) :
  forall offer_ids offer_ids',
    Catalog.collect product_list offer_ids = Ok offer_ids'
    <-> exists more,
          offer_ids' = offer_ids ++ more
          ∧ Forall2 (fun product offer_id =>
                       exists fields, product = Some fields
                         ∧ offer_id = dict_get fields (py "offer_id"))
                    product_list more.
Proof.
  induction product_list as [|product product_list IH];
    intros offer_ids offer_ids'; simpl.
  - split.
    + intros [= <-]. exists []. by rewrite app_nil_r.
    + intros (more & -> & Hall). inversion Hall. by rewrite app_nil_r.
  - destruct product as [fields|]; simpl.
    + rewrite IH. split.
      * intros (more & -> & Hall).
        exists (dict_get fields (py "offer_id") :: more).
        rewrite <- app_assoc. split; [done|]. constructor; [by eexists|done].
      * intros (more & -> & Hall).
        apply Forall2_cons_inv_l in Hall
          as (offer_id & more' & (fields' & Heq & ->) & Hall' & ->).
        injection Heq as <-. exists more'. by rewrite <- app_assoc.
    + split; [done|]. intros (more & _ & Hall).
      by apply Forall2_cons_inv_l in Hall as (? & ? & (fields & ? & _) & _).
Qed.

End CatalogLoop.

Section CatalogTheorems.
Variable get_product_list : nat -> pyobj -> result (option Catalog.page).

Lemma fetch_never_returns (bound : Z) :
  (forall requests last_id,
      exists some_prod more,
        get_product_list requests last_id = Ok (Some some_prod)
        ∧ Catalog.items some_prod = Some more
        ∧ forall z, Catalog.total some_prod = Some z -> z < bound) ->
  forall fuel requests last_id product_list,
    bound <= Z.of_nat (length product_list) ->
    Catalog.fetch get_product_list fuel requests last_id product_list = None.
Proof.
  intros Hpages fuel.
  induction fuel as [|fuel IH]; intros requests last_id product_list Hbound;
    [done|].
  destruct (Hpages requests last_id) as (some_prod & more & Hreq & Hitems & Htotal).
  simpl. rewrite Hreq, Hitems.
  rewrite decide_False.
  - apply IH. rewrite length_app. lia.
  - intros Heq. apply Htotal in Heq. rewrite length_app in Heq. lia.
Qed.

End CatalogTheorems.

(** X17. [get_offer_ids] returns within [fuel] requests exactly when the
    catalogue serves at most [fuel] pages of which the last one, and no
    page before it, announces a total equal to the number of products
    received so far.  The first request carries the empty cursor and each
    later one the "last_id" of the page before; every product received is
    an object, and the list returned holds the offer id of every product of
    every page, in order. *)
Theorem get_offer_ids_returns
    (get_product_list : nat -> pyobj -> result (option Catalog.page))
    (fuel : nat) (offer_ids : list pyobj) :
  Catalog.get_offer_ids get_product_list fuel = Some (Ok offer_ids)
  <-> exists pages,
        (length pages <= fuel)%nat
        ∧ served get_product_list pages
        ∧ Forall2 has_offer_id (fetched pages) offer_ids.
Proof.
  unfold Catalog.get_offer_ids. split.
  - destruct (Catalog.fetch get_product_list fuel 0 (PyStr []) [])
      as [[product_list|e]|] eqn:Hfetch; [|done|done].
    intros [= Hcollect].
    apply fetch_returns in Hfetch as (pages & Hlen & Hpages & ->).
    apply collect_spec in Hcollect as (more & -> & Hall).
    exists pages. split; [lia|]. split; [|done].
    split; [intros ->; simpl in Hlen; lia|]. exact Hpages.
  - intros (pages & Hlen & [Hne Hpages] & Hall).
    rewrite (fetch_enough get_product_list pages 0 (PyStr []) [] Hne Hpages fuel Hlen).
    f_equal. apply collect_spec. by exists offer_ids.
Qed.

Lemma get_offer_ids_returns_witness :
  Catalog.get_offer_ids two_pages 2 = Some (Ok [PyStr (py "A"); PyStr (py "B")])
  ∧ exists pages,
      (length pages <= 2)%nat
      ∧ served two_pages pages
      ∧ Forall2 has_offer_id (fetched pages) [PyStr (py "A"); PyStr (py "B")].
Proof.
  assert (Catalog.get_offer_ids two_pages 2
          = Some (Ok [PyStr (py "A"); PyStr (py "B")])) as Hrun
    by (vm_compute; reflexivity).
  split; [exact Hrun|].
  exact (proj1 (get_offer_ids_returns two_pages 2
                  [PyStr (py "A"); PyStr (py "B")]) Hrun).
Defined.



(** X19. The loop ends only on a total that is equal to the number of
    products received.  When every request is answered with a page whose
    total, if it is a number at all, is below [bound], and the first page
    alone holds at least [bound] products, [get_offer_ids] never returns:
    whatever the number of requests allowed, the loop is still running. *)
Theorem get_offer_ids_never_returns
    (get_product_list : nat -> pyobj -> result (option Catalog.page))
    (bound : Z) :
  (forall requests last_id,
      exists some_prod more,
        get_product_list requests last_id = Ok (Some some_prod)
        ∧ Catalog.items some_prod = Some more
        ∧ forall z, Catalog.total some_prod = Some z -> z < bound) ->
  (exists some_prod more,
      get_product_list 0%nat (PyStr []) = Ok (Some some_prod)
      ∧ Catalog.items some_prod = Some more
      ∧ bound <= Z.of_nat (length more)) ->
  forall fuel, Catalog.get_offer_ids get_product_list fuel = None.
Proof.
  intros Hpages (first & more & Hreq & Hitems & Hbound) fuel.
  unfold Catalog.get_offer_ids.
  destruct fuel as [|fuel]; [done|].
  destruct (Hpages 0%nat (PyStr [])) as (p & more' & Hp & _ & Htotal).
  rewrite Hreq in Hp. injection Hp as <-.
  simpl. rewrite Hreq, Hitems.
  rewrite decide_False by (intros Heq; apply Htotal in Heq; lia).
  by rewrite (fetch_never_returns get_product_list bound Hpages).
Qed.

Lemma get_offer_ids_never_returns_witness :
  Catalog.get_offer_ids overshoot 1000 = None.
Proof.
  apply (get_offer_ids_never_returns overshoot 2).
  - intros [|requests] last_id; eexists _, _;
      (split; [reflexivity|]); (split; [reflexivity|]);
      simpl; intros z [= <-]; lia.
  - eexists _, _. split; [reflexivity|]. split; [reflexivity|]. simpl. lia.
Defined.
